(** * ISTAtrol heating valve controller: firmware/main.c

    A shallow embedding of the regulation firmware (ATtiny2313, avr-gcc) and
    the properties of its measurement, smoothing, scheduling, regulation and
    actuation code.

    Integers are modelled as [Z] with the wrap-around of the C types written
    out.  On this target [int] is 16 bits wide and [uint16_t] is
    [unsigned int], so no arithmetic on [uint16_t] operands is carried out in
    a wider type (this is why the source writes [TARGET_TEMPERATURE * 8L] and
    documents "allows readings up to 32767" for the two-point average). *)

From Stdlib Require Import ZArith List Bool Lia Ascii.
Import ListNotations.
Local Open Scope Z_scope.

(** ** 16-bit machine arithmetic *)

Module Word16.

Definition modulus : Z := 65536.

(** Conversion to [uint16_t]. *)
Definition wrap (x : Z) : Z := x mod modulus.

(** Conversion to [int16_t] (two's complement, as avr-gcc does it). *)
Definition signed (x : Z) : Z :=
  let u := wrap x in if u <? 32768 then u else u - modulus.

Definition in_range (x : Z) : Prop := 0 <= x < modulus.

End Word16.

Import Word16.

(** ** Calibration values (the [#define]s at the top of main.c) *)

Record config : Type := mkConfig {
  TARGET_TEMPERATURE : Z;      (* Range: 500..32267 *)
  THERMISTOR_HYSTERESIS : Z;   (* Range: 0..499 *)
  RADIATOR_RESPONSE_TIME : Z;  (* Range: 0..65535 *)
  PREDICTION_STEEPNESS : Z;    (* Range: 1, 2, 4, 8 or 16 *)
  MOT_OPEN_TIME : Z;           (* Range: 1..6500 *)
  MOT_CLOSE_TIME : Z           (* Range: 1..6500 *)
}.

(** The values main.c is shipped with. *)
Definition firmware_config : config :=
  {| TARGET_TEMPERATURE := 5800;
     THERMISTOR_HYSTERESIS := 50;
     RADIATOR_RESPONSE_TIME := 120;
     PREDICTION_STEEPNESS := 4;
     MOT_OPEN_TIME := 200;
     MOT_CLOSE_TIME := 400 |}.

(** The configuration of the spec's scenarios 1 to 3 (two-point region). *)
Definition two_point_config : config :=
  {| TARGET_TEMPERATURE := 8000;
     THERMISTOR_HYSTERESIS := 50;
     RADIATOR_RESPONSE_TIME := 120;
     PREDICTION_STEEPNESS := 4;
     MOT_OPEN_TIME := 200;
     MOT_CLOSE_TIME := 400 |}.

(** The ranges documented next to each [#define]. *)
Definition config_in_range (cfg : config) : Prop :=
  500 <= TARGET_TEMPERATURE cfg <= 32267 /\
  0 <= THERMISTOR_HYSTERESIS cfg <= 499 /\
  0 <= RADIATOR_RESPONSE_TIME cfg <= 65535 /\
  In (PREDICTION_STEEPNESS cfg) [1; 2; 4; 8; 16] /\
  1 <= MOT_OPEN_TIME cfg <= 6500 /\
  1 <= MOT_CLOSE_TIME cfg <= 6500.

(** [#if TARGET_TEMPERATURE < 7000] *)
Definition eight_sample (cfg : config) : bool := TARGET_TEMPERATURE cfg <? 7000.

(** ** Machine state *)

(** [static struct { uint16_t temp_last; uint8_t motor_moved; } answer;] *)
Record answer_t : Type := mkAnswer {
  temp_last : Z;
  motor_moved : ascii
}.

(** The I/O lines main.c drives. *)
Inductive pin : Type := MOT_OPEN | MOT_CLOSE | TEMP_C.

Definition pin_eqb (p q : pin) : bool :=
  match p, q with
  | MOT_OPEN, MOT_OPEN | MOT_CLOSE, MOT_CLOSE | TEMP_C, TEMP_C => true
  | _, _ => false
  end.

(** What the firmware does to the outside world, in the order it does it. *)
Inductive out_event : Type :=
  | OutDir (p : pin)                 (* SET_OUTPUT(p) *)
  | OutWrite (p : pin) (v : bool)    (* WRITE(p, v) *)
  | OutDelay (ms : Z).               (* _delay_ms(ms) *)

(** Where V-USB's [usbMsgPtr] points. *)
Inductive msg_ptr : Type := msg_unset | msg_answer.

Record state : Type := mkState {
  temp_c : Z;              (* static uint16_t temp_c *)
  temp_temp : Z;           (* static uint16_t temp_temp *)
  temp_temp_eight : Z;     (* static uint16_t temp_temp_eight *)
  conversion_done : Z;     (* static uint8_t conversion_done *)
  answer : answer_t;       (* static struct answer *)
  time : Z;                (* uint16_t time, local to main *)
  TCNT1 : Z;               (* 16-bit Timer 1 *)
  port : pin -> bool;      (* output levels *)
  usbMsgPtr : msg_ptr;     (* usbdrv global *)
  wire : list out_event    (* output history, oldest first *)
}.

Definition set_temp_c (v : Z) (s : state) : state :=
  mkState v (temp_temp s) (temp_temp_eight s) (conversion_done s) (answer s)
          (time s) (TCNT1 s) (port s) (usbMsgPtr s) (wire s).

Definition set_temp_temp (v : Z) (s : state) : state :=
  mkState (temp_c s) v (temp_temp_eight s) (conversion_done s) (answer s)
          (time s) (TCNT1 s) (port s) (usbMsgPtr s) (wire s).

Definition set_temp_temp_eight (v : Z) (s : state) : state :=
  mkState (temp_c s) (temp_temp s) v (conversion_done s) (answer s)
          (time s) (TCNT1 s) (port s) (usbMsgPtr s) (wire s).

Definition set_conversion_done (v : Z) (s : state) : state :=
  mkState (temp_c s) (temp_temp s) (temp_temp_eight s) v (answer s)
          (time s) (TCNT1 s) (port s) (usbMsgPtr s) (wire s).

Definition set_answer (a : answer_t) (s : state) : state :=
  mkState (temp_c s) (temp_temp s) (temp_temp_eight s) (conversion_done s) a
          (time s) (TCNT1 s) (port s) (usbMsgPtr s) (wire s).

Definition set_time (v : Z) (s : state) : state :=
  mkState (temp_c s) (temp_temp s) (temp_temp_eight s) (conversion_done s)
          (answer s) v (TCNT1 s) (port s) (usbMsgPtr s) (wire s).

Definition set_TCNT1 (v : Z) (s : state) : state :=
  mkState (temp_c s) (temp_temp s) (temp_temp_eight s) (conversion_done s)
          (answer s) (time s) v (port s) (usbMsgPtr s) (wire s).

Definition set_usbMsgPtr (p : msg_ptr) (s : state) : state :=
  mkState (temp_c s) (temp_temp s) (temp_temp_eight s) (conversion_done s)
          (answer s) (time s) (TCNT1 s) (port s) p (wire s).

Definition set_temp_last (v : Z) (s : state) : state :=
  set_answer (mkAnswer v (motor_moved (answer s))) s.

Definition set_motor_moved (c : ascii) (s : state) : state :=
  set_answer (mkAnswer (temp_last (answer s)) c) s.

(** Appends one entry to the output history. *)
Definition emit (e : out_event) (s : state) : state :=
  mkState (temp_c s) (temp_temp s) (temp_temp_eight s) (conversion_done s)
          (answer s) (time s) (TCNT1 s) (port s) (usbMsgPtr s) (wire s ++ [e]).

(** Static initialisers, and [uint16_t time = 0] of [main].  Without an
    initialiser [answer] is zeroed, so [motor_moved] starts as NUL. *)
Definition reset_state (cfg : config) : state :=
  {| temp_c := 0;
     temp_temp := 0;
     temp_temp_eight := if eight_sample cfg then wrap (TARGET_TEMPERATURE cfg * 8) else 0;
     conversion_done := 0;
     answer := mkAnswer 0 Ascii.zero;
     time := 0;
     TCNT1 := 0;
     port := fun _ => false;
     usbMsgPtr := msg_unset;
     wire := [] |}.

(** ** pinio.h and avr-libc primitives *)

(** Modelled from the spec: pinio.h is not part of the sources at hand; the
    spec's hardware boundary is "digital-output control of two actuator
    lines and one excitation line".  [WRITE(p, v)] drives line [p] to level
    [v] and leaves the other lines alone. *)
Definition WRITE (p : pin) (v : bool) (s : state) : state :=
  emit (OutWrite p v)
    (mkState (temp_c s) (temp_temp s) (temp_temp_eight s) (conversion_done s)
             (answer s) (time s) (TCNT1 s)
             (fun q => if pin_eqb q p then v else port s q)
             (usbMsgPtr s) (wire s)).

(** Modelled from the spec: [SET_OUTPUT(p)] of pinio.h configures the
    direction of line [p]; it does not change any level. *)
Definition SET_OUTPUT (p : pin) (s : state) : state := emit (OutDir p) s.

(** What the hardware does while the CPU sits in a busy wait: Timer 1 counts
    on, and the Analog Comparator may raise its interrupt.  Interrupts are
    delivered during the waits, where the firmware spends its time; the few
    instructions between two waits are taken as one step. *)
Inductive irq_event : Type :=
  | Tick (n : Z)     (* Timer 1 advances by n counts *)
  | AnaComp.         (* comparator edge: ANA_COMP_vect runs *)

(** ISR(ANA_COMP_vect), main.c lines 409-430. *)
Definition ANA_COMP_vect (s : state) : state :=
  if conversion_done s =? 0 then
    WRITE TEMP_C false (set_conversion_done 1 (set_temp_temp (TCNT1 s) s))
  else s.

Definition deliver (e : irq_event) (s : state) : state :=
  match e with
  | Tick n => set_TCNT1 (wrap (TCNT1 s + n)) s
  | AnaComp => ANA_COMP_vect s
  end.

Definition interrupts (evs : list irq_event) (s : state) : state :=
  fold_left (fun st e => deliver e st) evs s.

(** [_delay_ms(ms)]: a busy wait, during which [evs] happen. *)
Definition _delay_ms (ms : Z) (evs : list irq_event) (s : state) : state :=
  interrupts evs (emit (OutDelay ms) s).

(** ** What the environment does during one pass of the main loop *)

(** One turn of the loop in [poll_a_second]: the control request, if any,
    that [usbPoll] finds pending, and what happens during the 40 ms wait. *)
Record slice : Type := mkSlice {
  setup : option (list Z);
  during : list irq_event
}.

(** One pass of the main loop: the 25 slices of the measurement wait, and
    what happens while a motor pulse is held. *)
Record cycle_env : Type := mkCycle {
  wait : nat -> slice;
  pulse : list irq_event
}.

Definition idle_slice : slice := mkSlice None [].

(** A measurement wait in which the comparator fires once, [v] timer counts
    after the start, and nothing else happens. *)
Definition capture_at (v : Z) : nat -> slice :=
  fun i => match i with
           | O => mkSlice None [Tick v; AnaComp]
           | S _ => idle_slice
           end.

(** The spec's MotorAction. *)
Inductive action : Type := ActNone | ActOpen | ActClose.

(** The marker main.c stores in [answer.motor_moved]. *)
Definition marker (a : action) : ascii :=
  match a with
  | ActNone => " "%char
  | ActOpen => "+"%char
  | ActClose => "-"%char
  end.

Section Firmware.

Variable cfg : config.

(** *** Valve motor movements *)

(** motor_init, main.c lines 203-209. *)
Definition motor_init (s : state) : state :=
  WRITE MOT_CLOSE false (SET_OUTPUT MOT_CLOSE
    (WRITE MOT_OPEN false (SET_OUTPUT MOT_OPEN s))).

(** motor_open, main.c lines 216-221. *)
Definition motor_open (evs : list irq_event) (s : state) : state :=
  WRITE MOT_OPEN false
    (_delay_ms (MOT_OPEN_TIME cfg) evs (WRITE MOT_OPEN true s)).

(** motor_close, main.c lines 228-233. *)
Definition motor_close (evs : list irq_event) (s : state) : state :=
  WRITE MOT_CLOSE false
    (_delay_ms (MOT_CLOSE_TIME cfg) evs (WRITE MOT_CLOSE true s)).

(** *** USB *)

(** usbFunctionSetup, main.c lines 253-278, with CAN_AFFORD_USB_COMMANDS
    undefined (the only variant in which [main] compiles, as [answer] is
    declared under [#ifndef CAN_AFFORD_USB_COMMANDS]).  The result is
    [sizeof(answer)], 3 bytes on AVR. *)
Definition usbFunctionSetup (data : list Z) (s : state) : state * Z :=
  (set_usbMsgPtr msg_answer s, 3).

(** V-USB's [usbPoll]: hands a pending control request to
    [usbFunctionSetup]. *)
Definition usbPoll (rq : option (list Z)) (s : state) : state :=
  match rq with
  | Some data => fst (usbFunctionSetup data s)
  | None => s
  end.

(** The body of the [for] loop of poll_a_second, run [n] times from
    index [i]. *)
Fixpoint poll_loop (n i : nat) (sl : nat -> slice) (s : state) : state :=
  match n with
  | O => s
  | S n' =>
      poll_loop n' (S i) sl
        (_delay_ms 40 (during (sl i)) (usbPoll (setup (sl i)) s))
  end.

(** poll_a_second, main.c lines 287-295. *)
Definition poll_a_second (sl : nat -> slice) (s : state) : state :=
  poll_loop 25 0 sl s.

(** *** Temperature measurements *)

(** temp_init, main.c lines 302-322 (the comparator and timer control
    registers are not part of the state). *)
Definition temp_init (s : state) : state := SET_OUTPUT TEMP_C s.

(** The first part of temp_measure, main.c lines 351-358: the spec's
    [start_measurement()]. *)
Definition start_measurement (s : state) : state :=
  WRITE TEMP_C true
    (set_temp_temp 0 (set_conversion_done 0 (set_TCNT1 0 s))).

(** The smoothing step of temp_measure, main.c lines 367-375. *)
Definition smooth (s : state) : state :=
  if eight_sample cfg then
    let s1 := set_temp_temp_eight (wrap (temp_temp_eight s - temp_c s)) s in
    let s2 := set_temp_temp_eight (wrap (temp_temp_eight s1 + temp_temp s1)) s1 in
    set_temp_c (temp_temp_eight s2 / 8) s2
  else
    set_temp_c (wrap (wrap (temp_temp s + temp_c s) + 1) / 2) s.

(** temp_measure, main.c lines 346-402. *)
Definition temp_measure (sl : nat -> slice) (s : state) : state :=
  smooth (poll_a_second sl (start_measurement s)).

(** *** Application *)

(** hardware_init, main.c lines 434-452.  Interrupts are still disabled;
    Timer 1 runs for [ticks] counts during the 300 ms wait. *)
Definition hardware_init (ticks : Z) (s : state) : state :=
  _delay_ms 300 [Tick ticks] (motor_init (temp_init s)).

(** The extrapolation, main.c lines 498-499:
    [temp_c + PREDICTION_STEEPNESS * ((int16_t)temp_c - (int16_t)answer.temp_last)],
    the subtraction and the product in [int], the sum in [unsigned int],
    stored in a [uint16_t]. *)
Definition extrapolate (c last : Z) : Z :=
  let trend := signed (signed c - signed last) in
  let scaled := signed (PREDICTION_STEEPNESS cfg * trend) in
  wrap (c + wrap scaled).

(** The regulation step, main.c lines 470-514.  Both comparisons are
    between [unsigned int] and [int], hence unsigned. *)
Definition regulate (evs : list irq_event) (s : state) : state :=
  let temp_future := extrapolate (temp_c s) (temp_last (answer s)) in
  let s1 :=
    if temp_future <? wrap (TARGET_TEMPERATURE cfg - THERMISTOR_HYSTERESIS cfg)
    then set_motor_moved "-"%char (motor_close evs s)
    else if wrap (TARGET_TEMPERATURE cfg + THERMISTOR_HYSTERESIS cfg) <? temp_future
    then set_motor_moved "+"%char (motor_open evs s)
    else set_motor_moved " "%char s in
  set_temp_last (temp_c s1) (set_time 0 s1).

(** [time > RADIATOR_RESPONSE_TIME], main.c line 469. *)
Definition decision_due (s : state) : bool :=
  RADIATOR_RESPONSE_TIME cfg <? time s.

(** One pass of the [for (;;)] loop of main, main.c lines 462-516. *)
Definition main_loop (env : cycle_env) (s : state) : state :=
  let s1 := temp_measure (wait env) s in
  let s2 := set_time (wrap (time s1 + 1)) s1 in
  if decision_due s2 then regulate (pulse env) s2 else s2.

(** main, main.c lines 454-517, run for as many passes as [envs] is long. *)
Definition main (ticks : Z) (envs : list cycle_env) : state :=
  fold_left (fun s env => main_loop env s) envs
            (hardware_init ticks (reset_state cfg)).

(** *** The claims' vocabulary *)

(** The prediction as the spec words it, in unbounded signed arithmetic. *)
Definition predicted (smoothed last : Z) : Z :=
  smoothed + PREDICTION_STEEPNESS cfg * (smoothed - last).

(** The selection as the spec words it. *)
Definition select (smoothed last : Z) : action :=
  if predicted smoothed last <? TARGET_TEMPERATURE cfg - THERMISTOR_HYSTERESIS cfg
  then ActClose
  else if TARGET_TEMPERATURE cfg + THERMISTOR_HYSTERESIS cfg <? predicted smoothed last
  then ActOpen
  else ActNone.

(** The branch the regulation step takes, read off its two comparisons. *)
Definition decide (c last : Z) : action :=
  let temp_future := extrapolate c last in
  if temp_future <? wrap (TARGET_TEMPERATURE cfg - THERMISTOR_HYSTERESIS cfg)
  then ActClose
  else if wrap (TARGET_TEMPERATURE cfg + THERMISTOR_HYSTERESIS cfg) <? temp_future
  then ActOpen
  else ActNone.

(** One measurement cycle in which the raw reading is [v]. *)
Definition measure_reading (v : Z) (s : state) : state :=
  temp_measure (capture_at v) s.

End Firmware.

(** Levels of the lines after an output event. *)
Definition drive (e : out_event) (p : pin -> bool) : pin -> bool :=
  match e with
  | OutWrite q v => fun r => if pin_eqb r q then v else p r
  | OutDir _ | OutDelay _ => p
  end.

Definition replay (l : list out_event) (p : pin -> bool) : pin -> bool :=
  fold_left (fun st e => drive e st) l p.

Definition both_asserted (p : pin -> bool) : bool := p MOT_OPEN && p MOT_CLOSE.

(** No point of the output history [l], started from levels [p], has both
    motor lines high. *)
Fixpoint never_both (p : pin -> bool) (l : list out_event) : bool :=
  negb (both_asserted p) &&
  match l with
  | [] => true
  | e :: l' => never_both (drive e p) l'
  end.

(** The part of an output history that concerns the motor: writes to the
    two motor lines, and the waits. *)
Definition motor_event (e : out_event) : bool :=
  match e with
  | OutWrite MOT_OPEN _ | OutWrite MOT_CLOSE _ | OutDelay _ => true
  | _ => false
  end.

Definition motor_view (l : list out_event) : list out_event := filter motor_event l.

(** What a state has put on the wire since an earlier state. *)
Definition emitted (s s' : state) : list out_event :=
  skipn (length (wire s)) (wire s').

Definition no_edge (evs : list irq_event) : bool :=
  forallb (fun e => match e with AnaComp => false | Tick _ => true end) evs.

(** No comparator edge during the whole measurement wait. *)
Definition quiet (sl : nat -> slice) : Prop :=
  forall i, (i < 25)%nat -> no_edge (during (sl i)) = true.

(** The variables only the main loop writes. *)
Definition main_owned (s s' : state) : Prop :=
  temp_c s' = temp_c s /\
  temp_temp_eight s' = temp_temp_eight s /\
  answer s' = answer s /\
  time s' = time s.

(** The variables the capture handler writes. *)
Definition capture_owned (s s' : state) : Prop :=
  conversion_done s' = conversion_done s /\ temp_temp s' = temp_temp s.

(** The firmware after [hardware_init] and one measurement cycle that read
    6000. *)
Definition after_reading_6000 : state :=
  measure_reading firmware_config 6000 (main firmware_config 0 []).

(** The state of the spec's scenario 4. *)
Definition scenario_4 : state :=
  set_temp_temp 6000 (set_temp_c 5800 (set_temp_temp_eight 46400 (reset_state firmware_config))).

(** Feeding a list of raw readings, one measurement cycle each. *)
Definition feed (cfg : config) (raws : list Z) (s : state) : state :=
  fold_left (fun st v => measure_reading cfg v st) raws s.

(** The accumulator and the smoothed value agree, as they do after every
    update of the 8-sample filter. *)
Definition settled (s : state) : Prop :=
  0 <= temp_temp_eight s <= 65535 /\ temp_c s = temp_temp_eight s / 8.

(** How far the accumulator of the 8-sample filter is from the values at
    which the smoothed output equals [V]. *)
Definition gap8 (V : Z) (s : state) : nat :=
  Z.to_nat (if temp_c s <? V
            then 8 * V - temp_temp_eight s
            else temp_temp_eight s - (8 * V + 7)).

(** How far the smoothed value of the two-point filter is from [V]. *)
Definition gap2 (V : Z) (s : state) : nat := Z.to_nat (Z.abs (temp_c s - V)).

(** The range in which the sum of the two-point average cannot wrap. *)
Definition headroom (s : state) : Prop := 0 <= temp_c s <= 32767.

(** Within one unit of [V], from above. *)
Definition near (V : Z) (s : state) : Prop := V <= temp_c s <= V + 1.

(** The output history never has both motor lines high, and the levels it
    leads to are the levels the state holds. *)
Definition Safe (s : state) : Prop :=
  never_both (fun _ => false) (wire s) = true /\
  (forall q, replay (wire s) (fun _ => false) q = port s q).


(** Same levels on the two motor lines. *)
Definition same_motor_lines (s s' : state) : Prop :=
  port s' MOT_OPEN = port s MOT_OPEN /\ port s' MOT_CLOSE = port s MOT_CLOSE.

(** The pulse the spec asks of the actuator for each decision. *)
Definition pulse_of (cfg : config) (a : action) : list out_event :=
  match a with
  | ActNone => []
  | ActOpen => [OutWrite MOT_OPEN true; OutDelay (MOT_OPEN_TIME cfg); OutWrite MOT_OPEN false]
  | ActClose => [OutWrite MOT_CLOSE true; OutDelay (MOT_CLOSE_TIME cfg); OutWrite MOT_CLOSE false]
  end.

(** A step that leaves the motor lines as they are and keeps the history
    safe. *)
Definition off_motor (s s' : state) : Prop :=
  same_motor_lines s s' /\ (Safe s -> Safe s').


(** A pass of the main loop in which the raw reading is [v]. *)
Definition reading (v : Z) : cycle_env := mkCycle (capture_at v) [].

(** 121 passes that read 5800 (the first decision falls in the last of
    them), then 120 passes that read 4000. *)
Definition warming_run : list cycle_env :=
  repeat (reading 5800) 121 ++ repeat (reading 4000) 120.

(** ** Vocabulary of the further properties *)

(** Timer counts of a run of ticks. *)
Definition ticks_total (ns : list Z) : Z := fold_right Z.add 0 ns.

(** Milliseconds of busy waiting in an output history. *)
Definition delay_total (l : list out_event) : Z :=
  fold_right (fun e acc => match e with OutDelay ms => ms + acc | _ => acc end) 0 l.

(** How long the pulse of a decision holds its line. *)
Definition pulse_time (cfg : config) (a : action) : Z :=
  match a with
  | ActNone => 0
  | ActOpen => MOT_OPEN_TIME cfg
  | ActClose => MOT_CLOSE_TIME cfg
  end.

(** A state with [usbMsgPtr] blanked: all that is not USB. *)
Definition forget_usb (s : state) : state := set_usbMsgPtr msg_unset s.

(** The same pass of the main loop with no control request pending. *)
Definition without_usb (env : cycle_env) : cycle_env :=
  mkCycle (fun i => mkSlice None (during (wait env i))) (pulse env).

(** Smoothed value and last observed value at zero, as a sensor that never
    triggers leaves them. *)
Definition dead_sensor (s : state) : Prop :=
  temp_c s = 0 /\ temp_last (answer s) = 0 /\ 0 <= temp_temp_eight s < 8.

(** The number of the pass that runs after [envs] have run. *)
Definition next_pass (envs : list cycle_env) : Z := Z.of_nat (length envs) + 1.

(** The variables a measurement cycle computes with. *)
Definition same_measurement (s1 s2 : state) : Prop :=
  temp_c s1 = temp_c s2 /\ temp_temp_eight s1 = temp_temp_eight s2 /\
  temp_temp s1 = temp_temp s2 /\ conversion_done s1 = conversion_done s2 /\
  TCNT1 s1 = TCNT1 s2.

(** * Properties *)

(** ** Facts about 16-bit arithmetic *)

Module Word16Facts.

Lemma wrap_range x : in_range (wrap x).
Proof. unfold in_range, wrap, modulus. apply Z.mod_pos_bound. lia. Qed.

Lemma wrap_small x : in_range x -> wrap x = x.
Proof. unfold in_range, wrap, modulus. intros H. apply Z.mod_small. exact H. Qed.

Lemma wrap_wrap x : wrap (wrap x) = wrap x.
Proof. apply wrap_small, wrap_range. Qed.

Lemma signed_small x : 0 <= x < 32768 -> signed x = x.
Proof.
  intros H. unfold signed. rewrite wrap_small by (unfold in_range, modulus; lia).
  destruct (Z.ltb_spec x 32768); lia.
Qed.

Lemma signed_small_neg x : -32768 <= x < 0 -> signed x = x.
Proof.
  intros H. unfold signed, wrap, modulus.
  replace (x mod 65536) with (x + 65536).
  - destruct (Z.ltb_spec (x + 65536) 32768); lia.
  - apply Z.mod_unique with (q := -1); lia.
Qed.

Lemma signed_id x : -32768 <= x < 32768 -> signed x = x.
Proof.
  intros H. destruct (Z_lt_le_dec x 0).
  - apply signed_small_neg. lia.
  - apply signed_small. lia.
Qed.

Lemma wrap_signed x : wrap (signed x) = wrap x.
Proof.
  unfold signed. destruct (wrap x <? 32768).
  - apply wrap_wrap.
  - unfold wrap, modulus.
    rewrite <- (Z.mod_add (x mod 65536 - 65536) 1 65536) by lia.
    replace (x mod 65536 - 65536 + 1 * 65536) with (x mod 65536) by lia.
    apply Z.mod_mod. lia.
Qed.

End Word16Facts.

Import Word16Facts.


(** ** The capture interrupt *)

Section Capture.

(** Once the guard is set, the handler does nothing at all. *)
Lemma ANA_COMP_vect_guarded s :
  conversion_done s <> 0 -> ANA_COMP_vect s = s.
Proof.
  intros H. unfold ANA_COMP_vect.
  destruct (Z.eqb_spec (conversion_done s) 0); [contradiction | reflexivity].
Qed.

Lemma ANA_COMP_vect_first s :
  conversion_done s = 0 ->
  ANA_COMP_vect s =
    WRITE TEMP_C false (set_conversion_done 1 (set_temp_temp (TCNT1 s) s)).
Proof. intros H. unfold ANA_COMP_vect. rewrite H. reflexivity. Qed.

Lemma interrupts_app evs1 evs2 s :
  interrupts (evs1 ++ evs2) s = interrupts evs2 (interrupts evs1 s).
Proof. unfold interrupts. apply fold_left_app. Qed.

Lemma interrupts_cons e evs s :
  interrupts (e :: evs) s = interrupts evs (deliver e s).
Proof. reflexivity. Qed.

(** What timer ticks alone leave untouched. *)
Lemma ticks_frame ns s :
  let s' := interrupts (map Tick ns) s in
  conversion_done s' = conversion_done s /\
  temp_temp s' = temp_temp s /\
  port s' = port s /\
  wire s' = wire s.
Proof.
  revert s. induction ns as [|n ns IH]; intros s; cbn.
  - repeat split.
  - specialize (IH (deliver (Tick n) s)). cbn in IH. exact IH.
Qed.

(** With the guard set, nothing but the timer moves. *)
Lemma guarded_frame evs s :
  conversion_done s <> 0 ->
  let s' := interrupts evs s in
  conversion_done s' = conversion_done s /\
  temp_temp s' = temp_temp s /\
  port s' = port s /\
  wire s' = wire s.
Proof.
  revert s. induction evs as [|e evs IH]; intros s Hg; cbn.
  - repeat split.
  - destruct e as [n|].
    + specialize (IH (deliver (Tick n) s) Hg). cbn in IH. exact IH.
    + cbn. rewrite (ANA_COMP_vect_guarded s Hg). apply (IH s Hg).
Qed.

(** A wait without comparator edge is a wait of timer ticks. *)
Lemma no_edge_ticks evs :
  no_edge evs = true -> exists ns, evs = map Tick ns.
Proof.
  induction evs as [|e evs IH]; cbn; intros H.
  - exists []. reflexivity.
  - destruct e as [n|]; [|discriminate].
    destruct (IH H) as [ns ->]. exists (n :: ns). reflexivity.
Qed.

End Capture.

(** C3.  After [start_measurement] the guard is clear, the raw reading is
    zero and the excitation line is high, and stays so while only the timer
    runs.  The first comparator edge copies the counter into [temp_temp],
    sets the guard and drives the excitation line low.  Whatever follows
    before the next [start_measurement] (timer ticks and any number of
    further edges) leaves the raw reading, the guard and the line as the
    first edge left them: the line was written exactly once, and one more
    edge would not change the state at all. *)
Theorem first_edge_captures_once (s : state) (ns : list Z) (post : list irq_event) :
  let s0 := start_measurement s in
  let before := interrupts (map Tick ns) s0 in
  let s1 := interrupts (map Tick ns ++ [AnaComp]) s0 in
  let s2 := interrupts (map Tick ns ++ AnaComp :: post) s0 in
  (conversion_done before = 0 /\ temp_temp before = 0 /\ port before TEMP_C = true) /\
  (temp_temp s1 = TCNT1 before /\ conversion_done s1 = 1 /\ port s1 TEMP_C = false) /\
  (temp_temp s2 = temp_temp s1 /\ conversion_done s2 = conversion_done s1 /\
   port s2 TEMP_C = port s1 TEMP_C) /\
  wire s2 = wire s0 ++ [OutWrite TEMP_C false] /\
  ANA_COMP_vect s2 = s2.
Proof.
  intros s0 before s1 s2.
  destruct (ticks_frame ns s0) as (Hd & Ht & Hp & Hw). fold before in Hd, Ht, Hp, Hw.
  assert (Hb : conversion_done before = 0 /\ temp_temp before = 0 /\
               port before TEMP_C = true).
  { rewrite Hd, Ht, Hp. subst s0. cbn. repeat split. }
  assert (E1 : s1 = ANA_COMP_vect before).
  { subst s1 before. rewrite interrupts_app. reflexivity. }
  assert (E2 : s2 = interrupts post s1).
  { subst s2 s1. rewrite !interrupts_app. reflexivity. }
  destruct Hb as (Hb1 & Hb2 & Hb3).
  rewrite (ANA_COMP_vect_first before Hb1) in E1.
  assert (Hg : conversion_done s1 <> 0) by (rewrite E1; cbn; lia).
  destruct (guarded_frame post s1 Hg) as (Gd & Gt & Gp & Gw). rewrite <- E2 in Gd, Gt, Gp, Gw.
  repeat split; auto.
  - rewrite E1. reflexivity.
  - rewrite E1. reflexivity.
  - rewrite E1. reflexivity.
  - rewrite Gp. reflexivity.
  - rewrite Gw, E1. cbn. rewrite Hw. reflexivity.
  - apply ANA_COMP_vect_guarded. rewrite Gd. exact Hg.
Qed.

(** ** Frame lemmas: what the waits leave alone *)

Lemma main_owned_refl s : main_owned s s.
Proof. repeat split. Qed.

Lemma main_owned_trans s1 s2 s3 :
  main_owned s1 s2 -> main_owned s2 s3 -> main_owned s1 s3.
Proof.
  unfold main_owned. intros (A1 & A2 & A3 & A4) (B1 & B2 & B3 & B4).
  repeat split; congruence.
Qed.

Lemma capture_owned_trans s1 s2 s3 :
  capture_owned s1 s2 -> capture_owned s2 s3 -> capture_owned s1 s3.
Proof.
  unfold capture_owned. intros (A1 & A2) (B1 & B2). split; congruence.
Qed.

Lemma deliver_main_owned e s : main_owned s (deliver e s).
Proof.
  destruct e as [n|]; cbn.
  - repeat split.
  - unfold ANA_COMP_vect. destruct (conversion_done s =? 0); repeat split.
Qed.

Lemma interrupts_main_owned evs s : main_owned s (interrupts evs s).
Proof.
  revert s. induction evs as [|e evs IH]; intros s.
  - apply main_owned_refl.
  - rewrite interrupts_cons.
    eapply main_owned_trans; [apply deliver_main_owned | apply IH].
Qed.

Lemma delay_main_owned ms evs s : main_owned s (_delay_ms ms evs s).
Proof.
  unfold _delay_ms.
  eapply main_owned_trans; [|apply interrupts_main_owned]. repeat split.
Qed.

Section Frames.

Variable cfg : config.

Lemma usbPoll_main_owned rq s : main_owned s (usbPoll rq s).
Proof. destruct rq; repeat split. Qed.

Lemma usbPoll_capture_owned rq s : capture_owned s (usbPoll rq s).
Proof. destruct rq; repeat split. Qed.

Lemma poll_loop_main_owned n i sl s : main_owned s (poll_loop n i sl s).
Proof.
  revert i s. induction n as [|n IH]; intros i s; cbn.
  - apply main_owned_refl.
  - eapply main_owned_trans; [|apply IH].
    eapply main_owned_trans; [apply usbPoll_main_owned | apply delay_main_owned].
Qed.

Lemma poll_loop_quiet n i sl s :
  (forall j, (i <= j < i + n)%nat -> no_edge (during (sl j)) = true) ->
  capture_owned s (poll_loop n i sl s).
Proof.
  revert i s. induction n as [|n IH]; intros i s Hq; cbn.
  - split; reflexivity.
  - eapply capture_owned_trans; [|apply IH; intros j Hj; apply Hq; lia].
    eapply capture_owned_trans; [apply usbPoll_capture_owned|].
    destruct (no_edge_ticks (during (sl i))) as [ns ->]; [apply Hq; lia|].
    unfold _delay_ms.
    destruct (ticks_frame ns (emit (OutDelay 40) (usbPoll (setup (sl i)) s)))
      as (Hd & Ht & _).
    split; [rewrite Hd | rewrite Ht]; reflexivity.
Qed.

Lemma poll_a_second_quiet sl s :
  quiet sl -> capture_owned s (poll_a_second sl s).
Proof.
  intros Hq. apply poll_loop_quiet. intros j Hj. apply Hq. lia.
Qed.

Lemma start_measurement_main_owned s : main_owned s (start_measurement s).
Proof. repeat split. Qed.

(** The smoothing step reads three variables only. *)
Lemma smooth_reads s s' :
  temp_c s' = temp_c s -> temp_temp_eight s' = temp_temp_eight s ->
  temp_temp s' = temp_temp s ->
  temp_c (smooth cfg s') = temp_c (smooth cfg s) /\
  temp_temp_eight (smooth cfg s') = temp_temp_eight (smooth cfg s).
Proof.
  intros H1 H2 H3. unfold smooth.
  destruct (eight_sample cfg); cbn; rewrite H1, ?H2, H3; split; try reflexivity.
Qed.

(** The smoothing step writes [temp_c] and the accumulator only. *)
Lemma smooth_frame s :
  answer (smooth cfg s) = answer s /\ time (smooth cfg s) = time s /\
  wire (smooth cfg s) = wire s /\ port (smooth cfg s) = port s /\
  temp_temp (smooth cfg s) = temp_temp s /\
  conversion_done (smooth cfg s) = conversion_done s.
Proof. unfold smooth. destruct (eight_sample cfg); repeat split. Qed.

(** A measurement cycle leaves the answer structure and the cycle counter
    alone, whatever happens on USB and at the comparator. *)
Lemma temp_measure_frame sl s :
  answer (temp_measure cfg sl s) = answer s /\
  time (temp_measure cfg sl s) = time s.
Proof.
  unfold temp_measure, poll_a_second.
  destruct (smooth_frame (poll_loop 25 0 sl (start_measurement s)))
    as (Ha & Ht & _).
  destruct (poll_loop_main_owned 25 0 sl (start_measurement s))
    as (_ & _ & Pa & Pt).
  rewrite Ha, Ht, Pa, Pt. split; reflexivity.
Qed.

Lemma motor_open_main_owned evs s : main_owned s (motor_open cfg evs s).
Proof.
  unfold motor_open.
  destruct (delay_main_owned (MOT_OPEN_TIME cfg) evs (WRITE MOT_OPEN true s))
    as (H1 & H2 & H3 & H4).
  repeat split; cbn; assumption.
Qed.

Lemma motor_close_main_owned evs s : main_owned s (motor_close cfg evs s).
Proof.
  unfold motor_close.
  destruct (delay_main_owned (MOT_CLOSE_TIME cfg) evs (WRITE MOT_CLOSE true s))
    as (H1 & H2 & H3 & H4).
  repeat split; cbn; assumption.
Qed.

(** What a regulation step leaves behind. *)
Lemma regulate_result evs s :
  let s' := regulate cfg evs s in
  time s' = 0 /\
  temp_c s' = temp_c s /\
  temp_last (answer s') = temp_c s /\
  motor_moved (answer s') = marker (decide cfg (temp_c s) (temp_last (answer s))).
Proof.
  cbn. unfold regulate, decide.
  destruct (motor_open_main_owned evs s) as (O1 & _).
  destruct (motor_close_main_owned evs s) as (C1 & _).
  destruct (_ <? wrap _); [|destruct (wrap _ <? _)]; cbn; repeat split; assumption.
Qed.

End Frames.

(** ** The measurement cycle without a capture *)

(** C5 (as amended).  If no comparator edge fires during the bounded wait of
    a measurement cycle, the guard is still clear when the wait ends, and
    the raw reading handed to the smoothing step is 0, the value
    [temp_measure] stores before it starts the wait; what the previous
    cycle captured plays no part. *)
Theorem quiet_wait_feeds_zero (cfg : config) (sl : nat -> slice) (s : state) :
  quiet sl ->
  let w := poll_a_second sl (start_measurement s) in
  conversion_done w = 0 /\
  temp_temp w = 0 /\
  temp_c (temp_measure cfg sl s) = temp_c (smooth cfg (set_temp_temp 0 s)) /\
  temp_temp_eight (temp_measure cfg sl s) =
    temp_temp_eight (smooth cfg (set_temp_temp 0 s)).
Proof.
  intros Hq w.
  destruct (poll_a_second_quiet sl (start_measurement s) Hq) as (Hd & Ht).
  destruct (poll_loop_main_owned 25 0 sl (start_measurement s)) as (Hc & He & _).
  fold (poll_a_second sl (start_measurement s)) in Hc, He. fold w in Hd, Ht, Hc, He.
  assert (Hd0 : conversion_done w = 0) by (rewrite Hd; reflexivity).
  assert (Ht0 : temp_temp w = 0) by (rewrite Ht; reflexivity).
  split; [exact Hd0|]. split; [exact Ht0|].
  unfold temp_measure. fold w. apply smooth_reads.
  - rewrite Hc. reflexivity.
  - rewrite He. reflexivity.
  - rewrite Ht0. reflexivity.
Qed.

Lemma quiet_idle : quiet (fun _ => idle_slice).
Proof. intros i _. reflexivity. Qed.

Lemma quiet_wait_feeds_zero_witness :
  let w := poll_a_second (fun _ => idle_slice) (start_measurement after_reading_6000) in
  conversion_done w = 0 /\
  temp_temp w = 0 /\
  temp_c (temp_measure firmware_config (fun _ => idle_slice) after_reading_6000) =
    temp_c (smooth firmware_config (set_temp_temp 0 after_reading_6000)) /\
  temp_temp_eight (temp_measure firmware_config (fun _ => idle_slice) after_reading_6000) =
    temp_temp_eight (smooth firmware_config (set_temp_temp 0 after_reading_6000)).
Proof.
  apply (quiet_wait_feeds_zero firmware_config (fun _ => idle_slice) after_reading_6000).
  intros i Hi. reflexivity.
Defined.

(** C5 as stated fails: the previous cycle captured 6000, the next wait sees
    no edge, and the reading handed to the smoothing step is 0, not 6000. *)
Lemma stale_reading_counterexample :
  quiet (fun _ => idle_slice) /\
  temp_temp after_reading_6000 = 6000 /\
  ~ (let w := poll_a_second (fun _ => idle_slice) (start_measurement after_reading_6000) in
     conversion_done w = 0 /\ temp_temp w = temp_temp after_reading_6000).
Proof.
  split; [exact quiet_idle|]. split; [reflexivity|].
  cbv zeta. intros [_ H]. vm_compute in H. discriminate H.
Qed.

(** ** The status request *)

(** C10.  In the minimal build, [usbFunctionSetup] changes nothing but
    [usbMsgPtr], which it points at [answer]: every variable of the
    controller, the timer, the lines and the output history are as before,
    so the fetch does not reset [motor_moved].  A whole measurement cycle,
    with any requests served during it, leaves [answer] as it was; a pass of
    the main loop changes [motor_moved] only if a decision is due in it, and
    then to the marker of that decision. *)
Theorem status_fetch_changes_nothing (cfg : config) (data : list Z) (s : state) :
  let r := usbFunctionSetup data s in
  (snd r = 3 /\ usbMsgPtr (fst r) = msg_answer) /\
  (temp_c (fst r) = temp_c s /\ temp_temp (fst r) = temp_temp s /\
   temp_temp_eight (fst r) = temp_temp_eight s /\
   conversion_done (fst r) = conversion_done s /\
   answer (fst r) = answer s /\ time (fst r) = time s /\
   TCNT1 (fst r) = TCNT1 s /\ port (fst r) = port s /\ wire (fst r) = wire s) /\
  (forall sl, answer (temp_measure cfg sl s) = answer s) /\
  (forall env,
     let m := temp_measure cfg (wait env) s in
     motor_moved (answer (main_loop cfg env s)) =
       if RADIATOR_RESPONSE_TIME cfg <? wrap (time s + 1)
       then marker (decide cfg (temp_c m) (temp_last (answer s)))
       else motor_moved (answer s)).
Proof.
  cbn. split; [split; reflexivity|]. split; [repeat split|]. split.
  - intros sl. apply temp_measure_frame.
  - intros env. unfold main_loop, decision_due. cbn.
    destruct (temp_measure_frame cfg (wait env) s) as (Ha & Ht).
    rewrite Ht.
    destruct (RADIATOR_RESPONSE_TIME cfg <? wrap (time s + 1)).
    + destruct (regulate_result cfg (pulse env)
                  (set_time (wrap (time s + 1)) (temp_measure cfg (wait env) s)))
        as (_ & _ & _ & Hm).
      rewrite Hm.
      change (answer (set_time (wrap (time s + 1)) (temp_measure cfg (wait env) s)))
        with (answer (temp_measure cfg (wait env) s)).
      rewrite Ha. reflexivity.
    + cbn. rewrite Ha. reflexivity.
Qed.

(** ** The cycle scheduler *)

(** C4.  A pass of the main loop runs one measurement cycle and then
    increments the cycle counter ([time++] on a [uint16_t]: plus one, unless
    the counter is 65535).  If the incremented counter exceeds
    RADIATOR_RESPONSE_TIME the pass is the regulation step applied after the
    increment, and ends with the counter at zero and [temp_last] equal to
    the smoothed value the step decided on; otherwise the pass ends right
    after the increment, with [answer] as it was and nothing put on the
    motor lines. *)
Theorem scheduler_gates_decisions (cfg : config) (env : cycle_env) (s : state) :
  let m := temp_measure cfg (wait env) s in
  let t := wrap (time s + 1) in
  let s' := main_loop cfg env s in
  (0 <= time s < 65535 -> t = time s + 1) /\
  time m = time s /\
  if RADIATOR_RESPONSE_TIME cfg <? t
  then s' = regulate cfg (pulse env) (set_time t m) /\
       time s' = 0 /\
       temp_c s' = temp_c m /\
       temp_last (answer s') = temp_c m /\
       motor_moved (answer s') = marker (decide cfg (temp_c m) (temp_last (answer s)))
  else s' = set_time t m /\
       time s' = t /\
       answer s' = answer s /\
       wire s' = wire m.
Proof.
  intros m t s'.
  destruct (temp_measure_frame cfg (wait env) s) as (Ha & Ht). fold m in Ha, Ht.
  split.
  { intros H. subst t. apply wrap_small. unfold in_range, modulus. lia. }
  split; [exact Ht|].
  assert (E : s' = if RADIATOR_RESPONSE_TIME cfg <? t
                   then regulate cfg (pulse env) (set_time t m) else set_time t m).
  { subst s' t. unfold main_loop, decision_due. fold m. cbn. rewrite Ht. reflexivity. }
  destruct (RADIATOR_RESPONSE_TIME cfg <? t).
  - split; [exact E|]. rewrite E.
    destruct (regulate_result cfg (pulse env) (set_time t m)) as (R1 & R2 & R3 & R4).
    split; [exact R1|]. split; [exact R2|]. split; [exact R3|].
    rewrite R4. change (answer (set_time t m)) with (answer m).
    rewrite Ha. reflexivity.
  - split; [exact E|]. rewrite E. cbn. rewrite Ha. repeat split.
Qed.

Lemma scheduler_gates_decisions_witness :
  0 <= time after_reading_6000 < 65535 /\
  wrap (time after_reading_6000 + 1) = time after_reading_6000 + 1.
Proof.
  assert (H : 0 <= time after_reading_6000 < 65535).
  { vm_compute. split; [discriminate | reflexivity]. }
  split; [exact H|].
  exact (proj1 (scheduler_gates_decisions firmware_config
                  (mkCycle (fun _ => idle_slice) []) after_reading_6000) H).
Defined.

(** ** The smoothing filter *)

Lemma wrap_add_l a b : wrap (wrap a + b) = wrap (a + b).
Proof. unfold wrap, modulus. apply Z.add_mod_idemp_l. lia. Qed.

(** A cycle whose only comparator edge comes [v] counts after the start
    hands [v], as a 16-bit value, to the smoothing step. *)
Lemma capture_wait v s :
  let w := poll_a_second (capture_at v) (start_measurement s) in
  temp_temp w = wrap v /\ conversion_done w = 1 /\
  temp_c w = temp_c s /\ temp_temp_eight w = temp_temp_eight s.
Proof. cbn. repeat split. Qed.

Lemma measure_reading_smooth cfg v s :
  in_range v ->
  temp_c (measure_reading cfg v s) = temp_c (smooth cfg (set_temp_temp v s)) /\
  temp_temp_eight (measure_reading cfg v s) =
    temp_temp_eight (smooth cfg (set_temp_temp v s)).
Proof.
  intros Hv. unfold measure_reading, temp_measure.
  destruct (capture_wait v s) as (Ht & _ & Hc & He).
  apply smooth_reads; [exact Hc | exact He |].
  rewrite Ht. cbn. apply wrap_small. exact Hv.
Qed.

Section EightSample.

Variable cfg : config.
Hypothesis region : eight_sample cfg = true.

Lemma smooth_eight s :
  temp_temp_eight (smooth cfg s) =
    wrap (temp_temp_eight s - temp_c s + temp_temp s) /\
  temp_c (smooth cfg s) = temp_temp_eight (smooth cfg s) / 8.
Proof.
  unfold smooth. rewrite region. cbn. rewrite wrap_add_l. split; reflexivity.
Qed.

End EightSample.

Lemma smooth_two cfg (region : eight_sample cfg = false) s :
  temp_c (smooth cfg s) = wrap (temp_temp s + temp_c s + 1) / 2.
Proof. unfold smooth. rewrite region. cbn. rewrite wrap_add_l. reflexivity. Qed.

(** C2 (as amended).  Below the switchover threshold every filter update
    computes, in 16-bit unsigned arithmetic,
    accumulator' = (accumulator - previous_smoothed + raw) mod 65536 and
    smoothed' = accumulator' / 8, truncated.  Whenever
    accumulator - previous_smoothed + raw lies in 0..65535 this is the plain
    accumulator - previous_smoothed + raw.  The accumulator starts as
    8 * TARGET_TEMPERATURE, and from accumulator 46400, previous 5800 and raw
    6000 the update gives accumulator 46600 and smoothed 5825. *)
Theorem eight_sample_update (cfg : config) (s : state) :
  eight_sample cfg = true ->
  0 <= TARGET_TEMPERATURE cfg ->
  let acc' := temp_temp_eight (smooth cfg s) in
  let plain := temp_temp_eight s - temp_c s + temp_temp s in
  acc' = plain mod 65536 /\
  temp_c (smooth cfg s) = acc' / 8 /\
  temp_c (smooth cfg s) = Z.quot acc' 8 /\
  (0 <= plain < 65536 -> acc' = plain) /\
  temp_temp_eight (reset_state cfg) = 8 * TARGET_TEMPERATURE cfg /\
  (temp_temp_eight s = 46400 -> temp_c s = 5800 -> temp_temp s = 6000 ->
   acc' = 46600 /\ temp_c (smooth cfg s) = 5825).
Proof.
  intros Hr Ht acc' plain.
  destruct (smooth_eight cfg Hr s) as (Ha & Hc). fold acc' in Ha, Hc. fold plain in Ha.
  assert (Hrange : in_range acc') by (rewrite Ha; apply wrap_range).
  split; [exact Ha|]. split; [exact Hc|]. split.
  { rewrite Hc. symmetry. apply Z.quot_div_nonneg; unfold in_range in Hrange; lia. }
  split.
  { intros Hp. rewrite Ha. apply wrap_small. exact Hp. }
  split.
  { unfold reset_state. cbn [temp_temp_eight]. rewrite Hr. unfold eight_sample in Hr.
    apply Z.ltb_lt in Hr. rewrite wrap_small by (unfold in_range, modulus; lia). lia. }
  intros E1 E2 E3. rewrite Hc, Ha. subst plain. rewrite E1, E2, E3.
  split; reflexivity.
Qed.

Lemma eight_sample_update_witness :
  temp_temp_eight (smooth firmware_config scenario_4) = 46600 /\
  temp_c (smooth firmware_config scenario_4) = 5825.
Proof.
  apply (eight_sample_update firmware_config scenario_4);
    [reflexivity | discriminate | reflexivity | reflexivity | reflexivity].
Defined.

(** C2 as stated fails: right after start-up (accumulator 46400, smoothed 0)
    a raw reading of 30000 leaves the accumulator at 10864, not at
    46400 - 0 + 30000. *)
Lemma eight_sample_wrap_counterexample :
  let s := main firmware_config 0 [] in
  let s' := measure_reading firmware_config 30000 s in
  eight_sample firmware_config = true /\
  temp_temp_eight s = 46400 /\ temp_c s = 0 /\
  temp_temp_eight s' = 10864 /\
  ~ (temp_temp_eight s' = temp_temp_eight s - temp_c s + 30000 /\
     temp_c s' = temp_temp_eight s' / 8).
Proof.
  cbv zeta. repeat split. intros [H _]. vm_compute in H. discriminate H.
Qed.

(** C7 (as amended).  At or above the switchover threshold every filter
    update computes, in 16-bit unsigned arithmetic,
    smoothed' = ((raw + previous_smoothed + 1) mod 65536) / 2, truncated.
    Whenever raw + previous_smoothed + 1 does not exceed 65535 (as for
    readings up to 32767) this is (raw + previous_smoothed + 1) / 2, the
    mean rounded to nearest with ties rounded up.  The result is a function
    of raw and previous_smoothed only, and the update writes nothing but the
    smoothed value. *)
Theorem two_point_update (cfg : config) (s : state) :
  eight_sample cfg = false ->
  let raw := temp_temp s in
  let prev := temp_c s in
  let sm := temp_c (smooth cfg s) in
  sm = ((raw + prev + 1) mod 65536) / 2 /\
  sm = Z.quot ((raw + prev + 1) mod 65536) 2 /\
  (0 <= raw -> 0 <= prev -> raw + prev + 1 <= 65535 ->
   sm = (raw + prev + 1) / 2 /\ raw + prev <= 2 * sm <= raw + prev + 1) /\
  (forall s2, temp_temp s2 = raw -> temp_c s2 = prev -> temp_c (smooth cfg s2) = sm) /\
  smooth cfg s = set_temp_c sm s.
Proof.
  intros Hr raw prev sm.
  assert (E : sm = ((raw + prev + 1) mod 65536) / 2).
  { apply (smooth_two cfg Hr s). }
  split; [exact E|]. split.
  { rewrite E. symmetry. apply Z.quot_div_nonneg; [|lia].
    apply Z.mod_pos_bound. lia. }
  split.
  { intros H1 H2 H3. rewrite E. rewrite Z.mod_small by lia.
    split; [reflexivity|]. Z.div_mod_to_equations. lia. }
  split.
  { intros s2 E1 E2. subst sm. unfold smooth. rewrite Hr. cbn. rewrite E1, E2. reflexivity. }
  subst sm. unfold smooth. rewrite Hr. reflexivity.
Qed.

Lemma two_point_update_witness :
  temp_c (smooth two_point_config
            (set_temp_temp 8200 (set_temp_c 8100 (reset_state two_point_config)))) = 8150.
Proof.
  rewrite (proj1 (two_point_update two_point_config
             (set_temp_temp 8200 (set_temp_c 8100 (reset_state two_point_config)))
             eq_refl)).
  reflexivity.
Defined.

(** C7 as stated fails: right after start-up (smoothed 0) a raw reading of
    65535 gives the smoothed value 0, not (65535 + 0 + 1) / 2 = 32768. *)
Lemma two_point_wrap_counterexample :
  let s := main two_point_config 0 [] in
  let s' := measure_reading two_point_config 65535 s in
  eight_sample two_point_config = false /\
  temp_c s = 0 /\ temp_c s' = 0 /\
  temp_c s' <> (65535 + temp_c s + 1) / 2.
Proof.
  cbv zeta. repeat split. intros H. vm_compute in H. discriminate H.
Qed.

(** ** Bounds and convergence of the filters *)

Section EightSampleBounds.

Variable cfg : config.
Hypothesis region : eight_sample cfg = true.

(** One update, for a reading in the range the source expects, on a state
    whose subtraction cannot wrap. *)
Lemma eight_step v s :
  0 <= v <= 8191 ->
  0 <= temp_c s <= temp_temp_eight s ->
  temp_temp_eight s - temp_c s <= 57344 ->
  let s' := measure_reading cfg v s in
  temp_temp_eight s' = temp_temp_eight s - temp_c s + v /\
  temp_c s' = temp_temp_eight s' / 8.
Proof.
  intros Hv Hc Ha s'.
  destruct (measure_reading_smooth cfg v s) as (E1 & E2).
  { unfold in_range, modulus. lia. }
  fold s' in E1, E2.
  destruct (smooth_eight cfg region (set_temp_temp v s)) as (S1 & S2).
  cbn [temp_temp_eight temp_c temp_temp set_temp_temp] in S1.
  rewrite wrap_small in S1 by (unfold in_range, modulus; lia).
  rewrite E1, E2, S2, S1. split; reflexivity.
Qed.

Lemma settled_ready s :
  settled s ->
  0 <= temp_c s <= temp_temp_eight s /\ temp_temp_eight s - temp_c s <= 57344.
Proof.
  intros (Hr & Hc). rewrite Hc. Z.div_mod_to_equations. lia.
Qed.

Lemma eight_step_settled v s :
  0 <= v <= 8191 ->
  0 <= temp_c s <= temp_temp_eight s ->
  temp_temp_eight s - temp_c s <= 57344 ->
  settled (measure_reading cfg v s).
Proof.
  intros Hv Hc Ha. destruct (eight_step v s Hv Hc Ha) as (E1 & E2).
  split; [rewrite E1; lia | exact E2].
Qed.

(** One update moves the smoothed value no further than the new reading. *)
Lemma eight_step_between v s :
  0 <= v <= 8191 -> settled s ->
  Z.min v (temp_c s) <= temp_c (measure_reading cfg v s) <= Z.max v (temp_c s).
Proof.
  intros Hv Hs. destruct (settled_ready s Hs) as (Hc & Ha).
  destruct (eight_step v s Hv Hc Ha) as (E1 & E2).
  destruct Hs as (Hr & Hq). rewrite E2, E1, Hq.
  Z.div_mod_to_equations. lia.
Qed.

End EightSampleBounds.

Lemma fold_min_base v c l :
  fold_right Z.min (Z.min v c) l = Z.min v (fold_right Z.min c l).
Proof. induction l as [|x l IH]; cbn [fold_right]; [reflexivity | rewrite IH; lia]. Qed.

Lemma fold_max_base v c l :
  fold_right Z.max (Z.max v c) l = Z.max v (fold_right Z.max c l).
Proof. induction l as [|x l IH]; cbn [fold_right]; [reflexivity | rewrite IH; lia]. Qed.

Lemma fold_min_mono c c' l :
  c <= c' -> fold_right Z.min c l <= fold_right Z.min c' l.
Proof. intros H. induction l as [|x l IH]; cbn [fold_right]; lia. Qed.

Lemma fold_max_mono c c' l :
  c <= c' -> fold_right Z.max c l <= fold_right Z.max c' l.
Proof. intros H. induction l as [|x l IH]; cbn [fold_right]; lia. Qed.

(** C6 (as amended).  The 8-sample filter is a recursive average, so its
    output is bounded by the smoothed value it started from together with
    the raw readings fed since, not by the last 8 readings alone: for
    readings in 0..8191 and a state in which the smoothed value is the
    accumulator divided by 8, after every update the smoothed output lies
    between the minimum and the maximum of the starting smoothed value and
    all readings fed. *)
Theorem eight_sample_output_bounded (cfg : config) (raws : list Z) (s : state) :
  eight_sample cfg = true ->
  settled s ->
  Forall (fun v => 0 <= v <= 8191) raws ->
  fold_right Z.min (temp_c s) raws <= temp_c (feed cfg raws s)
    <= fold_right Z.max (temp_c s) raws.
Proof.
  intros Hr Hs Hall. revert s Hs.
  induction Hall as [|v raws Hv Hall IH]; intros s Hs.
  - cbn. lia.
  - change (feed cfg (v :: raws) s) with (feed cfg raws (measure_reading cfg v s)).
    destruct (settled_ready s Hs) as (Hc & Ha).
    pose proof (eight_step_settled cfg Hr v s Hv Hc Ha) as Hs1.
    pose proof (eight_step_between cfg Hr v s Hv Hs) as Hb.
    specialize (IH _ Hs1).
    pose proof (fold_min_mono _ _ raws (proj1 Hb)) as Hlo.
    pose proof (fold_max_mono _ _ raws (proj2 Hb)) as Hhi.
    rewrite fold_min_base in Hlo. rewrite fold_max_base in Hhi.
    cbn [fold_right]. lia.
Qed.

Lemma eight_sample_output_bounded_witness :
  fold_right Z.min (temp_c scenario_4) [6000; 5000]
    <= temp_c (feed firmware_config [6000; 5000] scenario_4)
    <= fold_right Z.max (temp_c scenario_4) [6000; 5000].
Proof.
  apply (eight_sample_output_bounded firmware_config [6000; 5000] scenario_4).
  - reflexivity.
  - split; [vm_compute; split; discriminate | reflexivity].
  - repeat constructor; discriminate.
Defined.

(** C6 as stated fails: eight cycles after start-up that all read 1000 leave
    the smoothed value at 2934, although each of the trailing 8 raw samples
    is 1000. *)
Lemma trailing_window_counterexample :
  let raws := repeat 1000 8 in
  let s := feed firmware_config raws (main firmware_config 0 []) in
  temp_c s = 2934 /\
  ~ (fold_right Z.min 1000 raws - 1 <= temp_c s <= fold_right Z.max 1000 raws + 1).
Proof.
  cbv zeta. split; [reflexivity|].
  intros [_ H]. vm_compute in H. apply H. reflexivity.
Qed.

(** A step function that cannot leave a good set, and gets closer to it by a
    natural-number measure while outside, ends up in it for good. *)
Section Convergence.

Variable A : Type.
Variable f : A -> A.
Variables Inv Good : A -> Prop.
Variable mu : A -> nat.
Hypothesis Inv_step : forall a, Inv a -> Inv (f a).
Hypothesis Good_step : forall a, Inv a -> Good a -> Good (f a).
Hypothesis progress : forall a, Inv a -> Good (f a) \/ (mu (f a) < mu a)%nat.

Lemma iter_shift n a : Nat.iter n f (f a) = f (Nat.iter n f a).
Proof. rewrite <- Nat.iter_succ_r. apply Nat.iter_succ. Qed.

Lemma Inv_iter n a : Inv a -> Inv (Nat.iter n f a).
Proof.
  intros H. induction n as [|n IH]; [exact H|].
  rewrite Nat.iter_succ. apply Inv_step. exact IH.
Qed.

Lemma Good_iter n a : Inv a -> Good a -> Good (Nat.iter n f a).
Proof.
  intros Hi Hg. induction n as [|n IH]; [exact Hg|].
  rewrite Nat.iter_succ.
  apply Good_step; [apply Inv_iter; exact Hi | exact IH].
Qed.

Lemma reaches n : forall a, Inv a -> (mu a <= n)%nat -> Good (Nat.iter (S n) f a).
Proof.
  induction n as [|n IH]; intros a Hi Hm.
  - change (Good (f a)). destruct (progress a Hi) as [Hg | Hlt]; [exact Hg | lia].
  - rewrite Nat.iter_succ_r.
    destruct (progress a Hi) as [Hg | Hlt].
    + apply Good_iter; [apply Inv_step; exact Hi | exact Hg].
    + apply IH; [apply Inv_step; exact Hi | lia].
Qed.

Lemma stays a n : Inv a -> (S (mu a) <= n)%nat -> Good (Nat.iter n f a).
Proof.
  intros Hi Hn.
  replace n with ((n - S (mu a)) + S (mu a))%nat by lia.
  rewrite Nat.iter_add.
  apply Good_iter; [apply Inv_iter; exact Hi | apply reaches; [exact Hi | lia]].
Qed.

End Convergence.

Section EightSampleConvergence.

Variable cfg : config.
Hypothesis region : eight_sample cfg = true.
Variable V : Z.
Hypothesis V_range : 0 <= V <= 8191.

Lemma eight_settled_step s : settled s -> settled (measure_reading cfg V s).
Proof.
  intros Hs. destruct (settled_ready s Hs) as (Hc & Ha).
  apply eight_step_settled; assumption.
Qed.

Lemma eight_fixed s :
  settled s -> temp_c s = V -> temp_c (measure_reading cfg V s) = V.
Proof.
  intros Hs Hg. destruct (settled_ready s Hs) as (Hc & Ha).
  destruct (eight_step cfg region V s V_range Hc Ha) as (E1 & E2).
  destruct Hs as (Hr & Hq). rewrite E2, E1. rewrite Hg.
  replace (temp_temp_eight s - V + V) with (temp_temp_eight s) by lia.
  rewrite <- Hq. exact Hg.
Qed.

Lemma eight_progress s :
  settled s ->
  temp_c (measure_reading cfg V s) = V \/
  (gap8 V (measure_reading cfg V s) < gap8 V s)%nat.
Proof.
  intros Hs. destruct (settled_ready s Hs) as (Hc & Ha).
  destruct (eight_step cfg region V s V_range Hc Ha) as (E1 & E2).
  destruct Hs as (Hr & Hq).
  destruct (Z.eq_dec (temp_c (measure_reading cfg V s)) V) as [Heq | Hne];
    [left; exact Heq | right].
  unfold gap8.
  destruct (Z.ltb_spec (temp_c (measure_reading cfg V s)) V) as [H1 | H1];
    destruct (Z.ltb_spec (temp_c s) V) as [H2 | H2];
    rewrite E2, E1 in H1, Hne; rewrite E1; rewrite Hq in *;
    Z.div_mod_to_equations; lia.
Qed.

End EightSampleConvergence.

Section TwoPointConvergence.

Variable cfg : config.
Hypothesis region : eight_sample cfg = false.
Variable V : Z.
Hypothesis V_range : 0 <= V <= 32767.

Lemma two_step s :
  headroom s ->
  temp_c (measure_reading cfg V s) = (V + temp_c s + 1) / 2.
Proof.
  intros Hh. unfold headroom in Hh.
  destruct (measure_reading_smooth cfg V s) as (E1 & _).
  { unfold in_range, modulus. lia. }
  rewrite E1.
  rewrite (smooth_two cfg region (set_temp_temp V s)).
  cbn [temp_temp temp_c set_temp_temp].
  rewrite wrap_small by (unfold in_range, modulus; lia). reflexivity.
Qed.

Lemma two_headroom_step s : headroom s -> headroom (measure_reading cfg V s).
Proof.
  intros Hh. unfold headroom. rewrite (two_step s Hh). unfold headroom in Hh.
  Z.div_mod_to_equations. lia.
Qed.

Lemma two_near_step s : headroom s -> near V s -> near V (measure_reading cfg V s).
Proof.
  intros Hh Hn. unfold near in *. rewrite (two_step s Hh).
  Z.div_mod_to_equations. lia.
Qed.

Lemma two_progress s :
  headroom s ->
  near V (measure_reading cfg V s) \/
  (gap2 V (measure_reading cfg V s) < gap2 V s)%nat.
Proof.
  intros Hh. unfold near, gap2. rewrite (two_step s Hh). unfold headroom in Hh.
  Z.div_mod_to_equations. lia.
Qed.

End TwoPointConvergence.

(** C8 (as amended).  For a constant raw reading [V] that the filter can
    represent (0..8191 with the 8-sample filter, 0..32767 with the two-point
    filter) and a starting state in range (8-sample: a smoothed value that
    the first subtraction cannot take below zero or above 57344; two-point:
    a smoothed value at most 32767), repeating the measurement cycle
    converges: from some number of updates on, the smoothed output stays
    within one unit of [V]. *)
Theorem constant_reading_converges (cfg : config) (V : Z) (s : state) :
  0 <= V ->
  (if eight_sample cfg
   then V <= 8191 /\ 0 <= temp_c s <= temp_temp_eight s /\
        temp_temp_eight s - temp_c s <= 57344
   else V <= 32767 /\ 0 <= temp_c s <= 32767) ->
  exists N : nat, forall n : nat, (N <= n)%nat ->
    Z.abs (temp_c (Nat.iter n (measure_reading cfg V) s) - V) <= 1.
Proof.
  intros HV Hrange.
  destruct (eight_sample cfg) eqn:Hr.
  - destruct Hrange as (HV8 & Hc & Ha).
    assert (V_range : 0 <= V <= 8191) by lia.
    set (f := measure_reading cfg V).
    assert (Hs1 : settled (f s)) by (apply eight_step_settled; assumption).
    exists (S (S (gap8 V (f s)))). intros n Hn.
    destruct n as [|n]; [lia|].
    rewrite Nat.iter_succ_r. fold f.
    assert (Hgood : temp_c (Nat.iter n f (f s)) = V).
    { apply (stays state f settled (fun st => temp_c st = V) (gap8 V)).
      - intros a Hi. apply eight_settled_step; assumption.
      - intros a Hi Hg. apply eight_fixed; assumption.
      - intros a Hi. apply eight_progress; assumption.
      - exact Hs1.
      - lia. }
    rewrite Hgood. lia.
  - destruct Hrange as (HV2 & Hc).
    assert (V_range : 0 <= V <= 32767) by lia.
    set (f := measure_reading cfg V).
    exists (S (gap2 V s)). intros n Hn.
    assert (Hgood : near V (Nat.iter n f s)).
    { apply (stays state f headroom (near V) (gap2 V)).
      - intros a Hi. apply two_headroom_step; assumption.
      - intros a Hi Hg. apply two_near_step; assumption.
      - intros a Hi. apply two_progress; assumption.
      - exact Hc.
      - exact Hn. }
    unfold near in Hgood. lia.
Qed.

Lemma constant_reading_converges_witness :
  exists N : nat, forall n : nat, (N <= n)%nat ->
    Z.abs (temp_c (Nat.iter n (measure_reading firmware_config 6000)
                     (main firmware_config 0 [])) - 6000) <= 1.
Proof.
  apply (constant_reading_converges firmware_config 6000 (main firmware_config 0 [])).
  - discriminate.
  - vm_compute. repeat split; discriminate.
Defined.

(** ** The valve actuator *)

Section OutputHistory.

Lemma replay_app l1 l2 p : replay (l1 ++ l2) p = replay l2 (replay l1 p).
Proof. unfold replay. apply fold_left_app. Qed.

Lemma drive_ext e p p' :
  (forall q, p q = p' q) -> forall q, drive e p q = drive e p' q.
Proof.
  intros H q. destruct e as [r | r v | ms]; cbn; auto.
  destruct (pin_eqb q r); auto.
Qed.

Lemma both_ext p p' :
  (forall q, p q = p' q) -> both_asserted p = both_asserted p'.
Proof. intros H. unfold both_asserted. rewrite !H. reflexivity. Qed.

Lemma never_both_head p l : never_both p l = true -> both_asserted p = false.
Proof.
  destruct l; cbn; intros H; apply andb_prop in H; destruct H as [H _];
    apply negb_true_iff in H; exact H.
Qed.

Lemma never_both_last l : forall p,
  never_both p l = true -> both_asserted (replay l p) = false.
Proof.
  induction l as [|e l IH]; intros p H.
  - apply (never_both_head p []). exact H.
  - cbn in H. apply andb_prop in H. destruct H as [_ H].
    apply (IH (drive e p)). exact H.
Qed.

Lemma never_both_snoc l e : forall p,
  never_both p (l ++ [e]) =
    never_both p l && negb (both_asserted (drive e (replay l p))).
Proof.
  induction l as [|a l IH]; intros p.
  - cbn. destruct (both_asserted p), (both_asserted (drive e p)); reflexivity.
  - cbn [app never_both]. rewrite IH.
    change (replay (a :: l) p) with (replay l (drive a p)).
    rewrite andb_assoc. reflexivity.
Qed.

Lemma Safe_now s : Safe s -> both_asserted (port s) = false.
Proof.
  intros (Hn & Ht). rewrite <- (both_ext _ _ Ht). apply never_both_last. exact Hn.
Qed.

(** One more output event keeps the history safe if the levels it leads to
    are. *)
Lemma Safe_extend s s' e :
  Safe s ->
  wire s' = wire s ++ [e] ->
  (forall q, port s' q = drive e (port s) q) ->
  both_asserted (port s') = false ->
  Safe s'.
Proof.
  intros (Hn & Ht) Hw Hp Hb.
  assert (Hq : forall q, drive e (replay (wire s) (fun _ => false)) q = port s' q).
  { intros q. rewrite Hp. apply drive_ext. exact Ht. }
  split.
  - rewrite Hw, never_both_snoc, Hn, (both_ext _ _ Hq), Hb. reflexivity.
  - intros q. rewrite Hw, replay_app. apply Hq.
Qed.

(** Writes to other variables do not matter. *)
Lemma Safe_same s s' :
  Safe s -> wire s' = wire s -> (forall q, port s' q = port s q) -> Safe s'.
Proof.
  intros (Hn & Ht) Hw Hp. split.
  - rewrite Hw. exact Hn.
  - intros q. rewrite Hw, Hp. apply Ht.
Qed.

Lemma Safe_SET_OUTPUT p s : Safe s -> Safe (SET_OUTPUT p s).
Proof.
  intros H. apply (Safe_extend s _ (OutDir p) H); try reflexivity.
  apply (Safe_now s H).
Qed.


Lemma Safe_WRITE p v s :
  Safe s ->
  both_asserted (fun q => if pin_eqb q p then v else port s q) = false ->
  Safe (WRITE p v s).
Proof.
  intros H Hb. apply (Safe_extend s _ (OutWrite p v) H); try reflexivity. exact Hb.
Qed.

Lemma Safe_WRITE_TEMP_C v s : Safe s -> Safe (WRITE TEMP_C v s).
Proof. intros H. apply Safe_WRITE; [exact H | apply (Safe_now s H)]. Qed.




End OutputHistory.

Section MotorLines.

Variable cfg : config.

Lemma off_motor_refl s : off_motor s s.
Proof. split; [split; reflexivity | auto]. Qed.

Lemma off_motor_trans s1 s2 s3 :
  off_motor s1 s2 -> off_motor s2 s3 -> off_motor s1 s3.
Proof.
  intros ((A1 & A2) & A3) ((B1 & B2) & B3).
  split; [split; congruence | auto].
Qed.

(** A step that touches neither the lines nor the history. *)
Lemma off_motor_same s s' :
  wire s' = wire s -> port s' = port s -> off_motor s s'.
Proof.
  intros Hw Hp. split; [split; rewrite Hp; reflexivity|].
  intros H. apply (Safe_same s s' H Hw). intros q. rewrite Hp. reflexivity.
Qed.

Lemma deliver_off_motor e s : off_motor s (deliver e s).
Proof.
  destruct e as [n|]; cbn.
  - apply off_motor_same; reflexivity.
  - unfold ANA_COMP_vect. destruct (conversion_done s =? 0).
    + split; [split; reflexivity|]. intros H.
      apply Safe_WRITE_TEMP_C. apply (Safe_same s _ H); reflexivity.
    + apply off_motor_refl.
Qed.

Lemma interrupts_off_motor evs s : off_motor s (interrupts evs s).
Proof.
  revert s. induction evs as [|e evs IH]; intros s.
  - apply off_motor_refl.
  - rewrite interrupts_cons.
    eapply off_motor_trans; [apply deliver_off_motor | apply IH].
Qed.














End MotorLines.

Section Pulses.

Variable cfg : config.

Lemma emitted_app s s' l : wire s' = wire s ++ l -> emitted s s' = l.
Proof.
  intros H. unfold emitted. rewrite H. clear H.
  induction (wire s) as [|e w IH]; [reflexivity | exact IH].
Qed.

Lemma motor_view_app l1 l2 : motor_view (l1 ++ l2) = motor_view l1 ++ motor_view l2.
Proof. apply filter_app. Qed.

(** The capture handler writes to the excitation line only. *)
Lemma interrupts_wire evs s :
  exists l, wire (interrupts evs s) = wire s ++ l /\ motor_view l = [].
Proof.
  revert s. induction evs as [|e evs IH]; intros s.
  - exists []. split; [cbn; rewrite app_nil_r|]; reflexivity.
  - rewrite interrupts_cons. destruct (IH (deliver e s)) as (l & Hl & Hv).
    destruct e as [n|].
    + exists l. split; [exact Hl | exact Hv].
    + cbn in Hl. unfold ANA_COMP_vect in Hl. cbn. unfold ANA_COMP_vect.
      destruct (conversion_done s =? 0).
      * exists (OutWrite TEMP_C false :: l). split; [|exact Hv].
        rewrite Hl. cbn. rewrite <- app_assoc. reflexivity.
      * exists l. split; [exact Hl | exact Hv].
Qed.

Lemma motor_open_pulse evs s :
  motor_view (emitted s (motor_open cfg evs s)) = pulse_of cfg ActOpen.
Proof.
  destruct (interrupts_wire evs (emit (OutDelay (MOT_OPEN_TIME cfg)) (WRITE MOT_OPEN true s)))
    as (l & Hl & Hv).
  rewrite (emitted_app s _
             ([OutWrite MOT_OPEN true; OutDelay (MOT_OPEN_TIME cfg)] ++ l
                ++ [OutWrite MOT_OPEN false])).
  - rewrite !motor_view_app, Hv. reflexivity.
  - unfold motor_open, _delay_ms. cbn [wire WRITE emit]. rewrite Hl. cbn [wire WRITE emit].
    rewrite <- !app_assoc. reflexivity.
Qed.

Lemma motor_close_pulse evs s :
  motor_view (emitted s (motor_close cfg evs s)) = pulse_of cfg ActClose.
Proof.
  destruct (interrupts_wire evs (emit (OutDelay (MOT_CLOSE_TIME cfg)) (WRITE MOT_CLOSE true s)))
    as (l & Hl & Hv).
  rewrite (emitted_app s _
             ([OutWrite MOT_CLOSE true; OutDelay (MOT_CLOSE_TIME cfg)] ++ l
                ++ [OutWrite MOT_CLOSE false])).
  - rewrite !motor_view_app, Hv. reflexivity.
  - unfold motor_close, _delay_ms. cbn [wire WRITE emit]. rewrite Hl. cbn [wire WRITE emit].
    rewrite <- !app_assoc. reflexivity.
Qed.

Lemma regulate_pulse evs s :
  motor_view (emitted s (regulate cfg evs s)) =
    pulse_of cfg (decide cfg (temp_c s) (temp_last (answer s))).
Proof.
  unfold regulate, decide.
  destruct (_ <? wrap _); [|destruct (wrap _ <? _)].
  - apply motor_close_pulse.
  - apply motor_open_pulse.
  - rewrite (emitted_app s _ []); [reflexivity | cbn; rewrite app_nil_r; reflexivity].
Qed.

End Pulses.


(** ** The predictive regulator *)

Lemma wrap_add_r a b : wrap (a + wrap b) = wrap (a + b).
Proof. unfold wrap, modulus. apply Z.add_mod_idemp_r. lia. Qed.

(** X9.  Where nothing wraps, the regulation step computes the spec's
    prediction and takes the spec's branch. *)
Lemma regulate_agrees_in_range (cfg : config) (c last : Z) :
  config_in_range cfg ->
  0 <= c <= 32767 -> 0 <= last <= 32767 ->
  -32768 <= PREDICTION_STEEPNESS cfg * (c - last) <= 32767 ->
  0 <= predicted cfg c last <= 65535 ->
  extrapolate cfg c last = predicted cfg c last /\
  decide cfg c last = select cfg c last.
Proof.
  intros (HT & HH & _) Hc Hl Hk Hp.
  assert (E : extrapolate cfg c last = predicted cfg c last).
  { unfold extrapolate, predicted in *.
    rewrite (signed_id c), (signed_id last) by lia.
    rewrite (signed_id (c - last)) by lia.
    rewrite signed_id by lia. rewrite wrap_add_r.
    apply wrap_small. unfold in_range, modulus. lia. }
  split; [exact E|]. unfold decide, select. rewrite E.
  rewrite !wrap_small by (unfold in_range, modulus; lia). reflexivity.
Qed.

(** The spec's scenarios 1 to 3 on the code: the step opens on a prediction
    above the corridor, closes on one below it, and rests on its edge. *)
Example scenarios_on_code :
  predicted two_point_config 8200 8100 = 8600 /\
  decide two_point_config 8200 8100 = ActOpen /\
  predicted two_point_config 7900 8000 = 7500 /\
  decide two_point_config 7900 8000 = ActClose /\
  predicted two_point_config 8010 8000 = 8050 /\
  decide two_point_config 8010 8000 = ActNone.
Proof. vm_compute. repeat split. Qed.

(** C1 (the code departs from it).  After the passes of [warming_run] the
    next pass, reading 4000 again, decides on smoothed 4000 and last
    observed 5800.  The signed prediction is 4000 + 4 * (4000 - 5800) =
    -3200, below 5800 - 50, for which the claim selects Close.  The
    regulation step keeps the prediction in a [uint16_t], where it is
    62336, above 5800 + 50: it runs the open pulse and records '+'. *)
Theorem negative_prediction_opens_valve :
  let s := main firmware_config 0 warming_run in
  let m := temp_measure firmware_config (capture_at 4000) s in
  let s' := main_loop firmware_config (reading 4000) s in
  (temp_c m = 4000 /\ temp_last (answer m) = 5800 /\ time m = 120) /\
  (predicted firmware_config 4000 5800 = -3200 /\
   select firmware_config 4000 5800 = ActClose) /\
  (extrapolate firmware_config 4000 5800 = 62336 /\
   decide firmware_config 4000 5800 = ActOpen) /\
  motor_moved (answer s') = marker ActOpen /\
  motor_view (emitted m s') = pulse_of firmware_config ActOpen.
Proof. vm_compute. repeat split. Qed.

(** * Further properties of main.c *)

(** ** Capture *)

Lemma ticks_TCNT1 ns : forall s,
  in_range (TCNT1 s) ->
  TCNT1 (interrupts (map Tick ns) s) = wrap (TCNT1 s + ticks_total ns).
Proof.
  induction ns as [|n ns IH]; intros s Hr.
  - cbn. rewrite Z.add_0_r. symmetry. apply wrap_small. exact Hr.
  - cbn [map]. rewrite interrupts_cons. rewrite IH by (cbn; apply wrap_range).
    cbn [deliver TCNT1 set_TCNT1 ticks_total fold_right]. rewrite wrap_add_l.
    f_equal. fold (ticks_total ns). lia.
Qed.

(** X1.  Whatever the state before [start_measurement] (guard set or clear,
    any timer value, any earlier reading), the first comparator edge after
    it stores the number of timer counts elapsed since the start, modulo
    65536, and later ticks and edges do not change that reading. *)
Theorem capture_reads_elapsed_counts (s : state) (ns : list Z) (post : list irq_event) :
  let s' := interrupts (map Tick ns ++ AnaComp :: post) (start_measurement s) in
  temp_temp s' = ticks_total ns mod 65536 /\ conversion_done s' = 1.
Proof.
  intros s'. subst s'. rewrite interrupts_app, interrupts_cons.
  set (before := interrupts (map Tick ns) (start_measurement s)).
  destruct (ticks_frame ns (start_measurement s)) as (Hd & _). fold before in Hd.
  assert (Hb : conversion_done before = 0) by (rewrite Hd; reflexivity).
  assert (Ht : TCNT1 before = wrap (ticks_total ns)).
  { unfold before. rewrite ticks_TCNT1; [reflexivity|].
    cbn. unfold in_range, modulus. lia. }
  cbn [deliver]. rewrite (ANA_COMP_vect_first before Hb).
  set (s1 := WRITE TEMP_C false (set_conversion_done 1 (set_temp_temp (TCNT1 before) before))).
  assert (Hg : conversion_done s1 <> 0) by (cbn; lia).
  destruct (guarded_frame post s1 Hg) as (Gd & Gt & _).
  rewrite Gd, Gt. cbn. rewrite Ht. split; reflexivity.
Qed.

Lemma interrupts_usbMsgPtr evs : forall s,
  usbMsgPtr (interrupts evs s) = usbMsgPtr s.
Proof.
  induction evs as [|e evs IH]; intros s; [reflexivity|].
  rewrite interrupts_cons, IH.
  destruct e as [n|]; cbn; [reflexivity|].
  unfold ANA_COMP_vect. destruct (conversion_done s =? 0); reflexivity.
Qed.

(** X2.  The capture handler and the timer, however often they run, write
    none of the variables of the main loop ([temp_c], the accumulator,
    [answer], [time]), leave [usbMsgPtr] alone, and never touch the motor
    lines. *)
Theorem interrupts_leave_main_state (evs : list irq_event) (s : state) :
  let s' := interrupts evs s in
  temp_c s' = temp_c s /\ temp_temp_eight s' = temp_temp_eight s /\
  answer s' = answer s /\ time s' = time s /\
  usbMsgPtr s' = usbMsgPtr s /\
  port s' MOT_OPEN = port s MOT_OPEN /\ port s' MOT_CLOSE = port s MOT_CLOSE.
Proof.
  intros s'. destruct (interrupts_main_owned evs s) as (H1 & H2 & H3 & H4).
  destruct (interrupts_off_motor evs s) as ((L1 & L2) & _).
  pose proof (interrupts_usbMsgPtr evs s) as Hp.
  repeat split; assumption.
Qed.

(** ** The cycle counter *)

Lemma main_snoc cfg ticks envs env :
  main cfg ticks (envs ++ [env]) = main_loop cfg env (main cfg ticks envs).
Proof. unfold main. rewrite fold_left_app. reflexivity. Qed.

Lemma main_loop_time cfg env s :
  time (main_loop cfg env s) =
    if RADIATOR_RESPONSE_TIME cfg <? wrap (time s + 1) then 0 else wrap (time s + 1).
Proof.
  unfold main_loop, decision_due.
  destruct (temp_measure_frame cfg (wait env) s) as (_ & Ht).
  cbn [time set_time]. rewrite Ht.
  destruct (RADIATOR_RESPONSE_TIME cfg <? wrap (time s + 1)); [|reflexivity].
  apply regulate_result.
Qed.

Lemma succ_mod n m :
  0 < m -> 0 <= n ->
  (n + 1) mod m = if n mod m + 1 =? m then 0 else n mod m + 1.
Proof.
  intros Hm Hn.
  pose proof (Z.mod_pos_bound n m Hm) as Hb.
  pose proof (Z.div_mod n m ltac:(lia)) as Hd.
  destruct (Z.eqb_spec (n mod m + 1) m) as [E | E].
  - symmetry. apply Z.mod_unique with (q := n / m + 1); lia.
  - symmetry. apply Z.mod_unique with (q := n / m); lia.
Qed.

(** X4.  For a response time in its documented range 0..65535, the cycle
    counter after any number of passes from power-on is the number of
    passes modulo RADIATOR_RESPONSE_TIME + 1; so it never exceeds the
    response time when a pass ends.  If the response time is below 65535, a
    decision is due in exactly the passes whose number is a multiple of
    RADIATOR_RESPONSE_TIME + 1; at 65535 none is ever due. *)
Theorem cycle_counter_periodic (cfg : config) (ticks : Z) (envs : list cycle_env) :
  0 <= RADIATOR_RESPONSE_TIME cfg <= 65535 ->
  let period := RADIATOR_RESPONSE_TIME cfg + 1 in
  let s := main cfg ticks envs in
  time s = Z.of_nat (length envs) mod period /\
  0 <= time s <= RADIATOR_RESPONSE_TIME cfg /\
  (RADIATOR_RESPONSE_TIME cfg <? wrap (time s + 1)) =
    ((RADIATOR_RESPONSE_TIME cfg <? 65535) && (next_pass envs mod period =? 0)).
Proof.
  intros Hr period s.
  assert (Ht : time s = Z.of_nat (length envs) mod period).
  { subst s. induction envs as [|env envs IH] using rev_ind.
    - cbn [length Z.of_nat]. subst period. rewrite Z.mod_0_l by lia. reflexivity.
    - rewrite main_snoc, main_loop_time, IH, length_app.
      cbn [length]. rewrite Nat2Z.inj_add. change (Z.of_nat 1) with 1.
      set (n := Z.of_nat (length envs)).
      rewrite (succ_mod n period) by (subst period n; lia).
      pose proof (Z.mod_pos_bound n period ltac:(subst period; lia)) as Hb.
      destruct (Z.eqb_spec (n mod period + 1) period) as [E | E].
      + subst period. replace (n mod (RADIATOR_RESPONSE_TIME cfg + 1))
          with (RADIATOR_RESPONSE_TIME cfg) by lia.
        destruct (Z.eq_dec (RADIATOR_RESPONSE_TIME cfg) 65535) as [E5 | E5].
        * rewrite E5. reflexivity.
        * rewrite wrap_small by (unfold in_range, modulus; lia).
          destruct (Z.ltb_spec (RADIATOR_RESPONSE_TIME cfg)
                               (RADIATOR_RESPONSE_TIME cfg + 1)); [reflexivity | lia].
      + rewrite wrap_small by (unfold in_range, modulus; subst period; lia).
        destruct (Z.ltb_spec (RADIATOR_RESPONSE_TIME cfg) (n mod period + 1));
          [subst period; lia | reflexivity]. }
  pose proof (Z.mod_pos_bound (Z.of_nat (length envs)) period ltac:(subst period; lia)) as Hb.
  split; [exact Ht|]. split; [subst period; lia|].
  unfold next_pass. rewrite (succ_mod _ period) by (subst period; lia).
  rewrite <- Ht.
  destruct (Z.eqb_spec (time s + 1) period) as [E | E].
  - subst period. replace (time s) with (RADIATOR_RESPONSE_TIME cfg) by lia.
    destruct (Z.eq_dec (RADIATOR_RESPONSE_TIME cfg) 65535) as [E5 | E5].
    + rewrite E5. reflexivity.
    + rewrite wrap_small by (unfold in_range, modulus; lia).
      destruct (Z.ltb_spec (RADIATOR_RESPONSE_TIME cfg) (RADIATOR_RESPONSE_TIME cfg + 1));
        destruct (Z.ltb_spec (RADIATOR_RESPONSE_TIME cfg) 65535); try lia; reflexivity.
  - rewrite wrap_small by (unfold in_range, modulus; subst period; lia).
    destruct (Z.ltb_spec (RADIATOR_RESPONSE_TIME cfg) (time s + 1)); [subst period; lia|].
    destruct (Z.eqb_spec (time s + 1) 0); [lia|].
    rewrite andb_false_r. reflexivity.
Qed.

Lemma cycle_counter_periodic_witness :
  0 <= RADIATOR_RESPONSE_TIME firmware_config <= 65535 /\
  time (main firmware_config 0 warming_run) = 241 mod 121.
Proof.
  assert (H : 0 <= RADIATOR_RESPONSE_TIME firmware_config <= 65535).
  { cbn. split; discriminate. }
  split; [exact H|].
  exact (proj1 (cycle_counter_periodic firmware_config 0 warming_run H)).
Defined.

(** ** Range of the smoothed value *)

Lemma smooth_range cfg s :
  0 <= temp_c (smooth cfg s) <= (if eight_sample cfg then 8191 else 32767).
Proof.
  destruct (eight_sample cfg) eqn:Hr.
  - destruct (smooth_eight cfg Hr s) as (Ha & Hc). rewrite Hc, Ha.
    pose proof (wrap_range (temp_temp_eight s - temp_c s + temp_temp s)) as Hw.
    unfold in_range, modulus in Hw. Z.div_mod_to_equations. lia.
  - rewrite (smooth_two cfg Hr s).
    pose proof (wrap_range (temp_temp s + temp_c s + 1)) as Hw.
    unfold in_range, modulus in Hw. Z.div_mod_to_equations. lia.
Qed.

Lemma main_loop_temp_c cfg env s :
  temp_c (main_loop cfg env s) = temp_c (temp_measure cfg (wait env) s) /\
  temp_temp_eight (main_loop cfg env s) = temp_temp_eight (temp_measure cfg (wait env) s).
Proof.
  unfold main_loop. destruct (decision_due cfg _); [|split; reflexivity].
  unfold regulate.
  set (s2 := set_time _ (temp_measure cfg (wait env) s)).
  destruct (motor_open_main_owned cfg (pulse env) s2) as (O1 & O2 & _).
  destruct (motor_close_main_owned cfg (pulse env) s2) as (C1 & C2 & _).
  destruct (_ <? wrap _); [|destruct (wrap _ <? _)]; cbn; split;
    first [exact C1 | exact C2 | exact O1 | exact O2 | reflexivity].
Qed.

(** X5.  Whatever the raw readings, the state a pass starts from and the
    events during it, the smoothed value at the end of a pass is at most
    8191 with the 8-sample filter and at most 32767 with the two-point
    filter, and never negative: readings beyond these bounds cannot be
    represented in [temp_c]. *)
Theorem smoothed_value_range (cfg : config) (env : cycle_env) (s : state) :
  0 <= temp_c (main_loop cfg env s) <= (if eight_sample cfg then 8191 else 32767).
Proof.
  rewrite (proj1 (main_loop_temp_c cfg env s)).
  unfold temp_measure. apply smooth_range.
Qed.

(** X6.  With the 8-sample filter, at the end of every pass of the main
    loop the smoothed value is the accumulator divided by 8 and the
    accumulator is within 16 bits, whatever state the pass started from
    (also the start-up state, where the two disagree) and whatever was
    read. *)
Theorem accumulator_tracks_smoothed (cfg : config) (env : cycle_env) (s : state) :
  eight_sample cfg = true -> settled (main_loop cfg env s).
Proof.
  intros Hr. unfold settled.
  destruct (main_loop_temp_c cfg env s) as (Hc & Ha). rewrite Hc, Ha.
  unfold temp_measure.
  set (w := poll_a_second (wait env) (start_measurement s)).
  destruct (smooth_eight cfg Hr w) as (E1 & E2).
  split; [|exact E2]. rewrite E1.
  pose proof (wrap_range (temp_temp_eight w - temp_c w + temp_temp w)) as Hw.
  unfold in_range, modulus in Hw. lia.
Qed.

Lemma accumulator_tracks_smoothed_witness :
  settled (main_loop firmware_config (reading 6000) (main firmware_config 0 [])).
Proof.
  apply (accumulator_tracks_smoothed firmware_config (reading 6000)
           (main firmware_config 0 [])).
  reflexivity.
Defined.

(** X7.  Start-up transient of the 8-sample filter: the accumulator starts
    at 8 * TARGET_TEMPERATURE but [temp_c] starts at 0, so nothing is
    subtracted in the first update and the first smoothed value is
    TARGET_TEMPERATURE + raw / 8, for every raw reading that keeps
    8 * TARGET_TEMPERATURE + raw within 16 bits. *)
Theorem first_smoothed_value (cfg : config) (ticks raw : Z) :
  eight_sample cfg = true ->
  0 <= TARGET_TEMPERATURE cfg ->
  0 <= raw ->
  8 * TARGET_TEMPERATURE cfg + raw <= 65535 ->
  let s := measure_reading cfg raw (main cfg ticks []) in
  temp_temp_eight s = 8 * TARGET_TEMPERATURE cfg + raw /\
  temp_c s = TARGET_TEMPERATURE cfg + raw / 8.
Proof.
  intros Hr HT Hraw Hsum s.
  assert (H7 : TARGET_TEMPERATURE cfg < 7000) by (apply Z.ltb_lt; exact Hr).
  assert (Hacc : temp_temp_eight (main cfg ticks []) = 8 * TARGET_TEMPERATURE cfg).
  { change (temp_temp_eight (main cfg ticks []))
      with (if eight_sample cfg then wrap (TARGET_TEMPERATURE cfg * 8) else 0).
    rewrite Hr. rewrite wrap_small by (unfold in_range, modulus; lia). lia. }
  assert (Hc0 : temp_c (main cfg ticks []) = 0) by reflexivity.
  destruct (measure_reading_smooth cfg raw (main cfg ticks [])) as (E1 & E2).
  { unfold in_range, modulus. lia. }
  fold s in E1, E2.
  destruct (smooth_eight cfg Hr (set_temp_temp raw (main cfg ticks []))) as (S1 & S2).
  cbn [temp_temp_eight temp_c temp_temp set_temp_temp] in S1.
  rewrite Hacc, Hc0 in S1.
  rewrite wrap_small in S1 by (unfold in_range, modulus; lia).
  rewrite E1, E2, S2, S1. split; [lia|].
  Z.div_mod_to_equations. lia.
Qed.

Lemma first_smoothed_value_witness :
  temp_c (measure_reading firmware_config 6000 (main firmware_config 0 [])) =
    TARGET_TEMPERATURE firmware_config + 6000 / 8.
Proof.
  apply (first_smoothed_value firmware_config 0 6000);
    [reflexivity | discriminate | discriminate | discriminate].
Defined.

(** ** The extrapolation in 16 bits *)

Lemma wrap_sub_signed a b : wrap (signed a - signed b) = wrap (a - b).
Proof.
  unfold wrap at 1. unfold modulus. rewrite Zminus_mod.
  fold modulus. fold (wrap (signed a)). fold (wrap (signed b)).
  rewrite !wrap_signed. unfold wrap, modulus. rewrite <- Zminus_mod. reflexivity.
Qed.

Lemma wrap_mul_r k x : wrap (k * wrap x) = wrap (k * x).
Proof. unfold wrap, modulus. apply Z.mul_mod_idemp_r. lia. Qed.

Lemma extrapolate_mod cfg c last :
  extrapolate cfg c last = wrap (predicted cfg c last).
Proof.
  unfold extrapolate, predicted.
  rewrite wrap_signed, wrap_add_r.
  rewrite <- wrap_add_r, <- wrap_mul_r, wrap_signed, wrap_sub_signed.
  rewrite wrap_mul_r, wrap_add_r. reflexivity.
Qed.

(** X8.  For all 16-bit contents of [temp_c] and [temp_last], and any
    steepness, the casts to [int16_t] make no difference to the value the
    regulation step compares: [temp_future] is the signed prediction
    smoothed + steepness * (smoothed - last) reduced modulo 65536, and the
    branch taken is the one of that reduced value against the two
    thresholds. *)
Theorem prediction_modulo_65536 (cfg : config) (c last : Z) :
  let p := predicted cfg c last mod 65536 in
  extrapolate cfg c last = p /\
  0 <= p <= 65535 /\
  decide cfg c last =
    if p <? wrap (TARGET_TEMPERATURE cfg - THERMISTOR_HYSTERESIS cfg) then ActClose
    else if wrap (TARGET_TEMPERATURE cfg + THERMISTOR_HYSTERESIS cfg) <? p then ActOpen
    else ActNone.
Proof.
  intros p. pose proof (extrapolate_mod cfg c last) as E.
  change (wrap (predicted cfg c last)) with p in E.
  split; [exact E|]. split.
  - pose proof (Z.mod_pos_bound (predicted cfg c last) 65536 ltac:(lia)). subst p. lia.
  - unfold decide. rewrite E. reflexivity.
Qed.

Lemma regulate_agrees_in_range_witness :
  extrapolate two_point_config 8200 8100 = predicted two_point_config 8200 8100 /\
  decide two_point_config 8200 8100 = select two_point_config 8200 8100.
Proof.
  apply (regulate_agrees_in_range two_point_config 8200 8100).
  - unfold config_in_range. cbn.
    repeat split; try discriminate. right. right. left. reflexivity.
  - split; discriminate.
  - split; discriminate.
  - cbn. split; discriminate.
  - cbn. split; discriminate.
Defined.

(** X10.  A steady reading inside the corridor never moves the valve: if
    the smoothed value equals the last observed one and lies within
    TARGET_TEMPERATURE - THERMISTOR_HYSTERESIS .. TARGET_TEMPERATURE +
    THERMISTOR_HYSTERESIS (both ends included), the regulation step puts
    nothing on any line, leaves the levels as they are, and records ' '. *)
Theorem steady_in_corridor_rests (cfg : config) (evs : list irq_event) (s : state) :
  config_in_range cfg ->
  temp_last (answer s) = temp_c s ->
  TARGET_TEMPERATURE cfg - THERMISTOR_HYSTERESIS cfg <= temp_c s
    <= TARGET_TEMPERATURE cfg + THERMISTOR_HYSTERESIS cfg ->
  let s' := regulate cfg evs s in
  wire s' = wire s /\ port s' = port s /\ motor_moved (answer s') = marker ActNone.
Proof.
  intros (HT & HH & _) Hl Hc s'. subst s'. unfold regulate.
  rewrite Hl, extrapolate_mod. unfold predicted.
  replace (temp_c s + PREDICTION_STEEPNESS cfg * (temp_c s - temp_c s))
    with (temp_c s) by lia.
  rewrite !wrap_small by (unfold in_range, modulus; lia).
  destruct (Z.ltb_spec (temp_c s) (TARGET_TEMPERATURE cfg - THERMISTOR_HYSTERESIS cfg));
    [lia|].
  destruct (Z.ltb_spec (TARGET_TEMPERATURE cfg + THERMISTOR_HYSTERESIS cfg) (temp_c s));
    [lia|].
  repeat split.
Qed.

Lemma steady_in_corridor_rests_witness :
  let s := set_temp_last 5825 (set_temp_c 5825 (main firmware_config 0 [])) in
  wire (regulate firmware_config [AnaComp] s) = wire s.
Proof.
  apply (steady_in_corridor_rests firmware_config [AnaComp]
           (set_temp_last 5825 (set_temp_c 5825 (main firmware_config 0 [])))).
  - unfold config_in_range. cbn.
    repeat split; try discriminate. right. right. left. reflexivity.
  - reflexivity.
  - cbn. split; discriminate.
Defined.

(** ** The two-point filter between its inputs *)

(** X11.  With the two-point filter, for readings up to 32767 and a
    smoothed value up to 32767, the smoothed output after any number of
    updates lies between the minimum and the maximum of the starting
    smoothed value and the readings fed; one update lands between the
    previous smoothed value and the new reading. *)
Theorem two_point_output_bounded (cfg : config) (raws : list Z) (s : state) :
  eight_sample cfg = false ->
  headroom s ->
  Forall (fun v => 0 <= v <= 32767) raws ->
  fold_right Z.min (temp_c s) raws <= temp_c (feed cfg raws s)
    <= fold_right Z.max (temp_c s) raws.
Proof.
  intros Hr Hs Hall. revert s Hs.
  induction Hall as [|v raws Hv Hall IH]; intros s Hs.
  - cbn. lia.
  - change (feed cfg (v :: raws) s) with (feed cfg raws (measure_reading cfg v s)).
    pose proof (two_headroom_step cfg Hr v Hv s Hs) as Hs1.
    pose proof (two_step cfg Hr v Hv s Hs) as E.
    assert (Hb : Z.min v (temp_c s) <= temp_c (measure_reading cfg v s)
                 <= Z.max v (temp_c s)).
    { rewrite E. unfold headroom in Hs. Z.div_mod_to_equations. lia. }
    specialize (IH _ Hs1).
    pose proof (fold_min_mono _ _ raws (proj1 Hb)) as Hlo.
    pose proof (fold_max_mono _ _ raws (proj2 Hb)) as Hhi.
    rewrite fold_min_base in Hlo. rewrite fold_max_base in Hhi.
    cbn [fold_right]. lia.
Qed.

Lemma two_point_output_bounded_witness :
  let s := main two_point_config 0 [] in
  fold_right Z.min (temp_c s) [8200; 7900]
    <= temp_c (feed two_point_config [8200; 7900] s)
    <= fold_right Z.max (temp_c s) [8200; 7900].
Proof.
  apply (two_point_output_bounded two_point_config [8200; 7900]
           (main two_point_config 0 [])).
  - reflexivity.
  - split; discriminate.
  - repeat constructor; discriminate.
Defined.

(** ** Time spent waiting *)

Section Waiting.

Variable cfg : config.

Lemma delay_total_app l1 l2 :
  delay_total (l1 ++ l2) = delay_total l1 + delay_total l2.
Proof.
  induction l1 as [|e l1 IH]; [reflexivity|].
  cbn [app delay_total fold_right]. fold (delay_total (l1 ++ l2)). fold (delay_total l1).
  rewrite IH. destruct e; lia.
Qed.

Lemma delay_total_view l : delay_total (motor_view l) = delay_total l.
Proof.
  induction l as [|e l IH]; [reflexivity|].
  unfold motor_view in *. cbn [filter].
  destruct e as [p | p v | ms]; cbn [motor_event].
  - exact IH.
  - destruct p; cbn [delay_total fold_right]; exact IH.
  - cbn [delay_total fold_right]. fold (delay_total (filter motor_event l)).
    fold (delay_total l). rewrite IH. reflexivity.
Qed.

Lemma interrupts_no_delay evs s :
  exists l, wire (interrupts evs s) = wire s ++ l /\ delay_total l = 0.
Proof.
  destruct (interrupts_wire evs s) as (l & Hl & Hv).
  exists l. split; [exact Hl|]. rewrite <- delay_total_view, Hv. reflexivity.
Qed.

Lemma delay_wire ms evs s :
  exists l, wire (_delay_ms ms evs s) = wire s ++ l /\ delay_total l = ms.
Proof.
  unfold _delay_ms.
  destruct (interrupts_no_delay evs (emit (OutDelay ms) s)) as (l & Hl & Hd).
  exists (OutDelay ms :: l). split.
  - rewrite Hl. cbn [wire emit]. rewrite <- app_assoc. reflexivity.
  - cbn [delay_total fold_right]. fold (delay_total l). lia.
Qed.

Lemma poll_loop_wire n : forall i sl s,
  exists l, wire (poll_loop n i sl s) = wire s ++ l /\
            delay_total l = 40 * Z.of_nat n.
Proof.
  induction n as [|n IH]; intros i sl s.
  - exists []. split; [cbn; rewrite app_nil_r; reflexivity | reflexivity].
  - cbn [poll_loop].
    destruct (delay_wire 40 (during (sl i)) (usbPoll (setup (sl i)) s)) as (l1 & H1 & D1).
    destruct (IH (S i) sl (_delay_ms 40 (during (sl i)) (usbPoll (setup (sl i)) s)))
      as (l2 & H2 & D2).
    exists (l1 ++ l2). split.
    + rewrite H2, H1. destruct (setup (sl i)); cbn [usbPoll wire fst usbFunctionSetup set_usbMsgPtr];
        rewrite <- app_assoc; reflexivity.
    + rewrite delay_total_app, D1, D2. lia.
Qed.

Lemma temp_measure_wire sl s :
  exists l, wire (temp_measure cfg sl s) = wire s ++ l /\ delay_total l = 1000.
Proof.
  unfold temp_measure, poll_a_second.
  destruct (poll_loop_wire 25 0 sl (start_measurement s)) as (l & Hl & Hd).
  destruct (smooth_frame cfg (poll_loop 25 0 sl (start_measurement s))) as (_ & _ & Hw & _).
  exists (OutWrite TEMP_C true :: l). split.
  - rewrite Hw, Hl. cbn. rewrite <- app_assoc. reflexivity.
  - cbn [delay_total fold_right]. fold (delay_total l). rewrite Hd. reflexivity.
Qed.

Lemma motor_wire (p : pin) ms evs s :
  exists l, wire (WRITE p false (_delay_ms ms evs (WRITE p true s))) = wire s ++ l.
Proof.
  destruct (delay_wire ms evs (WRITE p true s)) as (l & Hl & _).
  exists ([OutWrite p true] ++ l ++ [OutWrite p false]).
  cbn [wire WRITE emit]. rewrite Hl. cbn [wire WRITE emit].
  rewrite <- !app_assoc. reflexivity.
Qed.

Lemma regulate_wire evs s :
  exists l, wire (regulate cfg evs s) = wire s ++ l /\
            delay_total l = pulse_time cfg (decide cfg (temp_c s) (temp_last (answer s))).
Proof.
  assert (H : exists l, wire (regulate cfg evs s) = wire s ++ l).
  { unfold regulate. destruct (_ <? wrap _); [|destruct (wrap _ <? _)].
    - apply (motor_wire MOT_CLOSE).
    - apply (motor_wire MOT_OPEN).
    - exists []. cbn. rewrite app_nil_r. reflexivity. }
  destruct H as (l & Hl). exists l. split; [exact Hl|].
  rewrite <- delay_total_view, <- (emitted_app s _ l Hl), regulate_pulse.
  destruct (decide cfg (temp_c s) (temp_last (answer s))); cbn; lia.
Qed.

End Waiting.

(** X12.  A pass of the main loop waits 25 times 40 ms in the measurement
    cycle, whatever happens on USB and at the comparator, and in a pass
    with a decision also the pulse time of that decision (MOT_OPEN_TIME,
    MOT_CLOSE_TIME or nothing): the waits put on record during the pass add
    up to 1000 ms plus that pulse time. *)
Theorem pass_waiting_time (cfg : config) (env : cycle_env) (s : state) :
  let m := temp_measure cfg (wait env) s in
  delay_total (emitted s m) = 1000 /\
  delay_total (emitted s (main_loop cfg env s)) =
    1000 + (if RADIATOR_RESPONSE_TIME cfg <? wrap (time s + 1)
            then pulse_time cfg (decide cfg (temp_c m) (temp_last (answer s)))
            else 0).
Proof.
  intros m.
  destruct (temp_measure_wire cfg (wait env) s) as (l1 & H1 & D1). fold m in H1.
  destruct (temp_measure_frame cfg (wait env) s) as (Ha & Ht). fold m in Ha, Ht.
  split; [rewrite (emitted_app s m l1 H1); exact D1|].
  unfold main_loop, decision_due. fold m. cbn [time set_time]. rewrite Ht.
  destruct (RADIATOR_RESPONSE_TIME cfg <? wrap (time s + 1)).
  - destruct (regulate_wire cfg (pulse env) (set_time (wrap (time s + 1)) m))
      as (l2 & H2 & D2).
    cbn [wire set_time temp_c answer] in H2, D2. rewrite Ha in D2.
    rewrite (emitted_app s _ (l1 ++ l2)).
    + rewrite delay_total_app, D1, D2. reflexivity.
    + rewrite H2, H1, app_assoc. reflexivity.
  - rewrite (emitted_app s _ l1); [lia | exact H1].
Qed.

(** ** Control requests do not interfere *)

Section UsbApart.

Variable cfg : config.

Lemma forget_usb_set p s : forget_usb (set_usbMsgPtr p s) = forget_usb s.
Proof. reflexivity. Qed.

Lemma forget_usb_inv s1 s2 :
  forget_usb s1 = forget_usb s2 -> s1 = set_usbMsgPtr (usbMsgPtr s1) s2.
Proof.
  destruct s1, s2. unfold forget_usb, set_usbMsgPtr. cbn.
  intros H. injection H as -> -> -> -> -> -> -> -> ->. reflexivity.
Qed.

Lemma deliver_ptr e p s : deliver e (set_usbMsgPtr p s) = set_usbMsgPtr p (deliver e s).
Proof.
  destruct e as [n|]; [reflexivity|].
  cbn. unfold ANA_COMP_vect. cbn. destruct (conversion_done s =? 0); reflexivity.
Qed.

Lemma interrupts_ptr evs p : forall s,
  interrupts evs (set_usbMsgPtr p s) = set_usbMsgPtr p (interrupts evs s).
Proof.
  induction evs as [|e evs IH]; intros s; [reflexivity|].
  rewrite !interrupts_cons, deliver_ptr. apply IH.
Qed.

Lemma delay_ptr ms evs p s :
  _delay_ms ms evs (set_usbMsgPtr p s) = set_usbMsgPtr p (_delay_ms ms evs s).
Proof. unfold _delay_ms. rewrite <- interrupts_ptr. reflexivity. Qed.

(** Serving a request or not makes no difference beyond [usbMsgPtr]. *)
Lemma poll_loop_forget n sl : forall i s1 s2,
  forget_usb s1 = forget_usb s2 ->
  forget_usb (poll_loop n i sl s1) =
    forget_usb (poll_loop n i (fun j => mkSlice None (during (sl j))) s2).
Proof.
  induction n as [|n IH]; intros i s1 s2 H; [exact H|].
  cbn [poll_loop setup during usbPoll]. apply IH.
  assert (H1 : forget_usb (usbPoll (setup (sl i)) s1) = forget_usb s2).
  { destruct (setup (sl i)); cbn [usbPoll fst usbFunctionSetup];
      [rewrite forget_usb_set|]; exact H. }
  rewrite (forget_usb_inv _ _ H1), delay_ptr. apply forget_usb_set.
Qed.

Lemma smooth_ptr p s : smooth cfg (set_usbMsgPtr p s) = set_usbMsgPtr p (smooth cfg s).
Proof. unfold smooth. destruct (eight_sample cfg); reflexivity. Qed.

Lemma regulate_ptr evs p s :
  regulate cfg evs (set_usbMsgPtr p s) = set_usbMsgPtr p (regulate cfg evs s).
Proof.
  unfold regulate, motor_open, motor_close. cbn [temp_c answer set_usbMsgPtr].
  destruct (_ <? wrap _); [|destruct (wrap _ <? _)].
  - change (WRITE MOT_CLOSE true (set_usbMsgPtr p s))
      with (set_usbMsgPtr p (WRITE MOT_CLOSE true s)).
    rewrite delay_ptr. reflexivity.
  - change (WRITE MOT_OPEN true (set_usbMsgPtr p s))
      with (set_usbMsgPtr p (WRITE MOT_OPEN true s)).
    rewrite delay_ptr. reflexivity.
  - reflexivity.
Qed.

Lemma main_loop_forget env s1 s2 :
  forget_usb s1 = forget_usb s2 ->
  forget_usb (main_loop cfg env s1) = forget_usb (main_loop cfg (without_usb env) s2).
Proof.
  intros H. unfold main_loop, temp_measure, poll_a_second.
  cbn [wait pulse without_usb].
  assert (Hs : forget_usb (start_measurement s1) = forget_usb (start_measurement s2)).
  { rewrite (forget_usb_inv _ _ H). reflexivity. }
  pose proof (poll_loop_forget 25 (wait env) 0 _ _ Hs) as Hp.
  set (w1 := poll_loop 25 0 (wait env) (start_measurement s1)) in *.
  set (w2 := poll_loop 25 0 _ (start_measurement s2)) in *.
  rewrite (forget_usb_inv _ _ Hp), smooth_ptr.
  set (m := smooth cfg w2). set (p := usbMsgPtr w1).
  change (set_time (wrap (time (set_usbMsgPtr p m) + 1)) (set_usbMsgPtr p m))
    with (set_usbMsgPtr p (set_time (wrap (time m + 1)) m)).
  change (decision_due cfg (set_usbMsgPtr p (set_time (wrap (time m + 1)) m)))
    with (decision_due cfg (set_time (wrap (time m + 1)) m)).
  destruct (decision_due cfg _); [rewrite regulate_ptr|]; apply forget_usb_set.
Qed.

End UsbApart.

(** X13.  Control requests cannot influence the controller: a run of the
    main loop in which requests are served and the same run with no request
    at all end in states that differ in [usbMsgPtr] at most; readings,
    smoothed value, accumulator, [answer], cycle counter, timer, line levels
    and output history are the same. *)
Theorem usb_requests_do_not_interfere (cfg : config) (ticks : Z) (envs : list cycle_env) :
  forget_usb (main cfg ticks envs) = forget_usb (main cfg ticks (map without_usb envs)).
Proof.
  induction envs as [|env envs IH] using rev_ind; [reflexivity|].
  rewrite map_app. cbn [map]. rewrite !main_snoc.
  apply main_loop_forget. exact IH.
Qed.

(** ** Each cycle starts afresh *)

Section Afresh.

Variable cfg : config.

Lemma deliver_same e s1 s2 :
  same_measurement s1 s2 -> same_measurement (deliver e s1) (deliver e s2).
Proof.
  intros (H1 & H2 & H3 & H4 & H5). destruct e as [n|]; cbn.
  - rewrite H5. repeat split; assumption.
  - unfold ANA_COMP_vect. rewrite H4.
    destruct (conversion_done s2 =? 0); cbn; repeat split; assumption.
Qed.

Lemma interrupts_same evs : forall s1 s2,
  same_measurement s1 s2 -> same_measurement (interrupts evs s1) (interrupts evs s2).
Proof.
  induction evs as [|e evs IH]; intros s1 s2 H; [exact H|].
  rewrite !interrupts_cons. apply IH, deliver_same, H.
Qed.

Lemma poll_loop_same n sl : forall i s1 s2,
  same_measurement s1 s2 ->
  same_measurement (poll_loop n i sl s1) (poll_loop n i sl s2).
Proof.
  induction n as [|n IH]; intros i s1 s2 H; [exact H|].
  cbn [poll_loop]. apply IH. unfold _delay_ms. apply interrupts_same.
  destruct (setup (sl i)); exact H.
Qed.

Lemma smooth_same s1 s2 :
  same_measurement s1 s2 -> same_measurement (smooth cfg s1) (smooth cfg s2).
Proof.
  intros (H1 & H2 & H3 & H4 & H5). unfold smooth.
  destruct (eight_sample cfg); cbn; rewrite H1, ?H2, H3; repeat split; assumption.
Qed.

End Afresh.

(** X14.  A measurement cycle starts afresh: what an earlier cycle or a
    late comparator edge left in [temp_temp], in the guard and in the timer
    has no influence on it.  Two states with the same smoothed value and
    accumulator, put through the same events, end the cycle with the same
    reading, guard, timer, smoothed value and accumulator. *)
Theorem cycle_starts_afresh (cfg : config) (sl : nat -> slice) (s1 s2 : state) :
  temp_c s1 = temp_c s2 ->
  temp_temp_eight s1 = temp_temp_eight s2 ->
  same_measurement (temp_measure cfg sl s1) (temp_measure cfg sl s2).
Proof.
  intros H1 H2. unfold temp_measure, poll_a_second.
  apply smooth_same, poll_loop_same.
  repeat split; assumption.
Qed.

Lemma cycle_starts_afresh_witness :
  let s := main firmware_config 0 [] in
  same_measurement
    (temp_measure firmware_config (capture_at 6000) s)
    (temp_measure firmware_config (capture_at 6000)
       (set_TCNT1 77 (set_conversion_done 1 (set_temp_temp 4321 s)))).
Proof.
  apply (cycle_starts_afresh firmware_config (capture_at 6000)); reflexivity.
Defined.

(** ** A sensor that never triggers *)

Section DeadSensor.

Variable cfg : config.
Hypothesis cfg_ok : config_in_range cfg.

Lemma dead_decides_close : decide cfg 0 0 = ActClose.
Proof.
  destruct cfg_ok as (HT & HH & _).
  unfold decide. rewrite extrapolate_mod. unfold predicted.
  replace (0 + PREDICTION_STEEPNESS cfg * (0 - 0)) with 0 by lia.
  rewrite (wrap_small (TARGET_TEMPERATURE cfg - THERMISTOR_HYSTERESIS cfg))
    by (unfold in_range, modulus; lia).
  change (wrap 0) with 0.
  destruct (Z.ltb_spec 0 (TARGET_TEMPERATURE cfg - THERMISTOR_HYSTERESIS cfg));
    [reflexivity | lia].
Qed.

Lemma dead_quiet_measure sl s :
  dead_sensor s -> quiet sl ->
  temp_c (temp_measure cfg sl s) = 0 /\
  temp_temp_eight (temp_measure cfg sl s) = temp_temp_eight s.
Proof.
  intros (Hc & Hl & Ha) Hq. unfold temp_measure.
  set (w := poll_a_second sl (start_measurement s)).
  destruct (poll_a_second_quiet sl (start_measurement s) Hq) as (_ & Ht).
  destruct (poll_loop_main_owned 25 0 sl (start_measurement s)) as (Pc & Pa & _).
  fold (poll_a_second sl (start_measurement s)) in Pc, Pa. fold w in Ht, Pc, Pa.
  change (temp_temp (start_measurement s)) with 0 in Ht.
  change (temp_c (start_measurement s)) with (temp_c s) in Pc.
  change (temp_temp_eight (start_measurement s)) with (temp_temp_eight s) in Pa.
  destruct (eight_sample cfg) eqn:Hr.
  - destruct (smooth_eight cfg Hr w) as (E1 & E2).
    rewrite E2, E1, Pa, Pc, Ht, Hc.
    replace (temp_temp_eight s - 0 + 0) with (temp_temp_eight s) by lia.
    rewrite wrap_small by (unfold in_range, modulus; lia).
    split; [|reflexivity]. Z.div_mod_to_equations. lia.
  - rewrite (smooth_two cfg Hr w), Ht, Pc, Hc. split; [reflexivity|].
    unfold smooth. rewrite Hr. exact Pa.
Qed.

End DeadSensor.

(** X15.  A sensor that never triggers makes the valve close for good: for
    a configuration in its documented ranges, once the smoothed value and
    the last observed value are 0 (accumulator below 8), every pass without
    comparator edge keeps them there, and every decision that falls in such
    a pass runs the close pulse and records '-'. *)
Theorem dead_sensor_keeps_closing (cfg : config) (env : cycle_env) (s : state) :
  config_in_range cfg ->
  dead_sensor s ->
  quiet (wait env) ->
  let m := temp_measure cfg (wait env) s in
  let s' := main_loop cfg env s in
  dead_sensor s' /\
  if RADIATOR_RESPONSE_TIME cfg <? wrap (time s + 1)
  then motor_moved (answer s') = marker ActClose /\
       motor_view (emitted m s') = pulse_of cfg ActClose
  else answer s' = answer s /\ wire s' = wire m.
Proof.
  intros Hcfg Hd Hq m s'.
  destruct (dead_quiet_measure cfg env.(wait) s Hd Hq) as (Mc & Ma). fold m in Mc, Ma.
  destruct (temp_measure_frame cfg (wait env) s) as (Fa & Ft). fold m in Fa, Ft.
  destruct (main_loop_temp_c cfg env s) as (Lc & La). fold m s' in Lc, La.
  destruct Hd as (Hc & Hl & Ha).
  assert (E : s' = if RADIATOR_RESPONSE_TIME cfg <? wrap (time s + 1)
                   then regulate cfg (pulse env) (set_time (wrap (time s + 1)) m)
                   else set_time (wrap (time s + 1)) m).
  { subst s'. unfold main_loop, decision_due. fold m. cbn [time set_time].
    rewrite Ft. reflexivity. }
  destruct (RADIATOR_RESPONSE_TIME cfg <? wrap (time s + 1)).
  - set (s2 := set_time (wrap (time s + 1)) m) in *.
    destruct (regulate_result cfg (pulse env) s2) as (_ & _ & R3 & R4).
    pose proof (regulate_pulse cfg (pulse env) s2) as RP.
    change (temp_c s2) with (temp_c m) in R3, R4, RP.
    change (answer s2) with (answer m) in R4, RP.
    change (emitted s2) with (emitted m) in RP.
    rewrite Fa, Mc, Hl, (dead_decides_close cfg Hcfg) in R4, RP.
    rewrite <- E in R3, R4, RP.
    split; [|split; assumption].
    split; [rewrite Lc; exact Mc|]. split; [rewrite R3; exact Mc|].
    rewrite La, Ma. exact Ha.
  - split.
    + split; [rewrite Lc; exact Mc|]. split; [rewrite E; cbn; rewrite Fa; exact Hl|].
      rewrite La, Ma. exact Ha.
    + rewrite E. cbn. rewrite Fa. split; reflexivity.
Qed.

Lemma dead_sensor_keeps_closing_witness :
  dead_sensor (main_loop firmware_config (mkCycle (fun _ => idle_slice) [])
                 (set_time 120 (set_temp_temp_eight 0 (main firmware_config 0 [])))).
Proof.
  assert (H1 : config_in_range firmware_config).
  { unfold config_in_range. cbn.
    repeat split; try discriminate. right. right. left. reflexivity. }
  assert (H2 : dead_sensor (set_time 120 (set_temp_temp_eight 0 (main firmware_config 0 [])))).
  { unfold dead_sensor. cbn. repeat split; try reflexivity; try discriminate. }
  assert (H3 : quiet (wait (mkCycle (fun _ => idle_slice) []))).
  { intros i Hi. reflexivity. }
  exact (proj1 (dead_sensor_keeps_closing firmware_config
                  (mkCycle (fun _ => idle_slice) [])
                  (set_time 120 (set_temp_temp_eight 0 (main firmware_config 0 [])))
                  H1 H2 H3)).
Defined.

(** ** No overflow for readings below 8192 *)

Lemma feed_settled cfg raws : forall s,
  eight_sample cfg = true ->
  settled s ->
  Forall (fun r => 0 <= r <= 8191) raws ->
  settled (feed cfg raws s).
Proof.
  intros s Hr Hs Hall. revert s Hs.
  induction Hall as [|r raws Hr0 Hall IH]; intros s Hs; [exact Hs|].
  change (feed cfg (r :: raws) s) with (feed cfg raws (measure_reading cfg r s)).
  apply IH. destruct (settled_ready s Hs) as (Hc & Ha).
  apply eight_step_settled; assumption.
Qed.

(** X16.  The source's remark on the 8-sample filter ("readings always
    below 8192 ... we can always keep a multiplication by 8") holds: from a
    state in which the smoothed value is the accumulator divided by 8, any
    run of readings in 0..8191 never wraps the accumulator; every update is
    exactly accumulator - smoothed + raw, and smoothed and accumulator keep
    agreeing.  The bound is sharp: with the accumulator at 65535 a reading
    of 8192 wraps it to 0. *)
Theorem no_overflow_below_8192 (cfg : config) (raws : list Z) (v : Z) (s : state) :
  eight_sample cfg = true ->
  settled s ->
  Forall (fun r => 0 <= r <= 8191) raws ->
  0 <= v <= 8191 ->
  let before := feed cfg raws s in
  let after := measure_reading cfg v before in
  settled before /\
  temp_temp_eight after = temp_temp_eight before - temp_c before + v /\
  temp_temp_eight
    (measure_reading cfg 8192 (set_temp_c 8191 (set_temp_temp_eight 65535 s))) = 0.
Proof.
  intros Hr Hs Hall Hv before after.
  assert (Hb : settled before) by (apply feed_settled; assumption).
  split; [exact Hb|]. split.
  - destruct (settled_ready before Hb) as (Hc & Ha).
    apply (eight_step cfg Hr v before Hv Hc Ha).
  - destruct (measure_reading_smooth cfg 8192
                (set_temp_c 8191 (set_temp_temp_eight 65535 s))) as (_ & E).
    { unfold in_range, modulus. lia. }
    rewrite E.
    destruct (smooth_eight cfg Hr
                (set_temp_temp 8192 (set_temp_c 8191 (set_temp_temp_eight 65535 s))))
      as (S1 & _).
    rewrite S1. reflexivity.
Qed.

Lemma no_overflow_below_8192_witness :
  temp_temp_eight (measure_reading firmware_config 8191
                     (feed firmware_config [6000; 5000] scenario_4)) =
    temp_temp_eight (feed firmware_config [6000; 5000] scenario_4)
      - temp_c (feed firmware_config [6000; 5000] scenario_4) + 8191.
Proof.
  assert (H1 : eight_sample firmware_config = true) by reflexivity.
  assert (H2 : settled scenario_4).
  { split; [vm_compute; split; discriminate | reflexivity]. }
  assert (H3 : Forall (fun r => 0 <= r <= 8191) [6000; 5000]).
  { repeat constructor; discriminate. }
  assert (H4 : 0 <= 8191 <= 8191) by (split; discriminate).
  exact (proj1 (proj2 (no_overflow_below_8192 firmware_config [6000; 5000] 8191
                         scenario_4 H1 H2 H3 H4))).
Defined.

(** ** Readings the filters cannot follow *)

(** C8 as stated fails for readings beyond what [temp_c] can hold: from
    power-on, with the 8-sample filter a constant reading of 10000, and with
    the two-point filter a constant reading of 40000, never bring the
    smoothed output within one unit of the reading, because every update
    leaves it at most 8191, respectively 32767. *)
Lemma constant_reading_out_of_range_counterexample :
  ~ (exists N : nat, forall n : nat, (N <= n)%nat ->
       Z.abs (temp_c (Nat.iter n (measure_reading firmware_config 10000)
                        (main firmware_config 0 [])) - 10000) <= 1) /\
  ~ (exists N : nat, forall n : nat, (N <= n)%nat ->
       Z.abs (temp_c (Nat.iter n (measure_reading two_point_config 40000)
                        (main two_point_config 0 [])) - 40000) <= 1).
Proof.
  split; intros [N H]; specialize (H (S N) (Nat.le_succ_diag_r N));
    rewrite Nat.iter_succ in H.
  - set (st := Nat.iter N _ _) in H.
    pose proof (smooth_range firmware_config
                  (poll_a_second (capture_at 10000) (start_measurement st))) as R.
    change (eight_sample firmware_config) with true in R. cbv iota in R.
    unfold measure_reading, temp_measure in H. lia.
  - set (st := Nat.iter N _ _) in H.
    pose proof (smooth_range two_point_config
                  (poll_a_second (capture_at 40000) (start_measurement st))) as R.
    change (eight_sample two_point_config) with false in R. cbv iota in R.
    unfold measure_reading, temp_measure in H. lia.
Qed.
